(** * transport: error taxonomy, error responses, the API helper and middleware

    A shallow embedding of the Go package [transport]
    (error_handler.go, middleware.go, the status response writer and the
    API helper) together with the properties its specification states.

    Conventions.
    - Go [int] is [Z]; [string] and [[]byte] are [string].
    - Go maps are [gmap]s.  [range] over a map visits the entries in an
      unspecified order, so the order is an explicit argument constrained to
      be a permutation of the entries.
    - Calls made on collaborators (the [http.ResponseWriter], the gzip
      writer, the logger) are recorded, in order, in a history of events;
      what those calls answer is read from an environment. *)

From Stdlib Require Import ZArith Lia.
From stdpp Require Import base option list gmap strings pretty.

Local Open Scope Z_scope.
Local Set Warnings "-register-all".

(** ** Package [errors] (github.com/deepauto-io/errors): the error codes

    The package is a dependency; its constants are taken as parameters. *)

Record ErrorCodes : Type := mkErrorCodes {
  EInternal : string;
  ENotImplemented : string;
  EBadGateway : string;
  EInvalid : string;
  EUnprocessableEntity : string;
  EEmptyValue : string;
  EConflict : string;
  ENotFound : string;
  EUnavailable : string;
  EForbidden : string;
  ETooManyRequests : string;
  EUnauthorized : string;
  EMethodNotAllowed : string;
  ETooLarge : string;
  EPaymentRequired : string;
  EUpgradeRequired : string;
  EStatusLocked : string
}.

(** ** Package [net/http]: status constants *)

Module http.
Definition StatusOK : Z := 200.
Definition StatusNoContent : Z := 204.
Definition StatusBadRequest : Z := 400.
Definition StatusUnauthorized : Z := 401.
Definition StatusPaymentRequired : Z := 402.
Definition StatusForbidden : Z := 403.
Definition StatusNotFound : Z := 404.
Definition StatusMethodNotAllowed : Z := 405.
Definition StatusRequestTimeout : Z := 408.
Definition StatusRequestEntityTooLarge : Z := 413.
Definition StatusUnsupportedMediaType : Z := 415.
Definition StatusUnprocessableEntity : Z := 422.
Definition StatusLocked : Z := 423.
Definition StatusUpgradeRequired : Z := 426.
Definition StatusTooManyRequests : Z := 429.
Definition StatusInternalServerError : Z := 500.
Definition StatusNotImplemented : Z := 501.
Definition StatusBadGateway : Z := 502.
Definition StatusServiceUnavailable : Z := 503.
Definition MethodOptions : string := "OPTIONS".
End http.

(** ** Package [context]: what [ctx.Err()] answers *)

Inductive ctxError : Type :=
| Canceled
| DeadlineExceeded.

Record Context : Type := mkContext {
  ctx_Err : option ctxError   (* [None] is Go's nil *)
}.

Definition Background : Context := {| ctx_Err := None |}.

(** ** error_handler.go: the taxonomy tables *)

Section Taxonomy.
Variable E : ErrorCodes.

(** The key/value pairs of the composite literal, in source order. *)
Definition apiErrorToStatusCode_entries : list (string * Z) :=
  [ (EInternal E, http.StatusInternalServerError);
    (ENotImplemented E, http.StatusNotImplemented);
    (EBadGateway E, http.StatusBadGateway);
    (EInvalid E, http.StatusBadRequest);
    (EUnprocessableEntity E, http.StatusUnprocessableEntity);
    (EEmptyValue E, http.StatusBadRequest);
    (EConflict E, http.StatusUnprocessableEntity);
    (ENotFound E, http.StatusNotFound);
    (EUnavailable E, http.StatusServiceUnavailable);
    (EForbidden E, http.StatusForbidden);
    (ETooManyRequests E, http.StatusTooManyRequests);
    (EUnauthorized E, http.StatusUnauthorized);
    (EMethodNotAllowed E, http.StatusMethodNotAllowed);
    (ETooLarge E, http.StatusRequestEntityTooLarge);
    (EPaymentRequired E, http.StatusPaymentRequired);
    (EUpgradeRequired E, http.StatusUpgradeRequired);
    (EStatusLocked E, http.StatusLocked) ].

(** [var apiErrorToStatusCode = map[string]int{...}] *)
Definition apiErrorToStatusCode : gmap string Z :=
  list_to_map apiErrorToStatusCode_entries.

(** The semantic error codes of the taxonomy: the keys of the literal. *)
Definition taxonomy : list string := apiErrorToStatusCode_entries.*1.

(** The Go compiler rejects a map literal with a repeated constant key. *)
Definition distinct_codes : Prop := NoDup taxonomy.

(** [ErrorCodeToStatusCode(ctx, code)] *)
Definition ErrorCodeToStatusCode (ctx : Context) (code : string) : Z :=
  match ctx_Err ctx with
  | Some DeadlineExceeded => http.StatusRequestTimeout
  | Some Canceled => 499
  | None =>
      match apiErrorToStatusCode !! code with
      | Some statusCode => statusCode
      | None => http.StatusInternalServerError
      end
  end.

(** The body of the loop of [init]: [httpStatusCodeToError[v] = k]. *)
Definition init_step (m : gmap Z string) (kv : string * Z) : gmap Z string :=
  <[kv.2 := kv.1]> m.

(** [func init()]: one assignment per entry visited; [visit] is the order in
    which [range] yields the entries. *)
Definition init_from (visit : list (string * Z)) : gmap Z string :=
  foldl init_step ∅ visit.

(** [visit] is an admissible iteration order of [range apiErrorToStatusCode]. *)
Definition range_order (visit : list (string * Z)) : Prop :=
  visit ≡ₚ map_to_list apiErrorToStatusCode.

(** [StatusCodeToErrorCode(statusCode)], reading the table [init] built. *)
Definition StatusCodeToErrorCode
    (httpStatusCodeToError : gmap Z string) (statusCode : Z) : string :=
  match httpStatusCodeToError !! statusCode with
  | Some errorCode => errorCode
  | None => EInternal E
  end.
End Taxonomy.

(** ** Go [error] values

    An error is either an [*errors.Error] (the application error of package
    [errors], with the fields this package reads and writes) or any other
    error, known by the text its [Error()] method returns. *)

Inductive error : Type :=
| errorString (text : string)
| platformError (code msg : string) (err : option error).

(** [errors.Error], as a struct under construction. *)
Record Error : Type := mkError {
  Code : string;
  Msg : string;
  Err : option error
}.

Definition to_error (e : Error) : error :=
  platformError (Code e) (Msg e) (Err e).

(** The type assertion [err.( *errors.Error)]. *)
Definition as_Error (err : error) : option Error :=
  match err with
  | errorString _ => None
  | platformError c m e => Some {| Code := c; Msg := m; Err := e |}
  end.

(** [errorsv2.New(text)] *)
Definition errors_New (text : string) : error := errorString text.

(** ** Values of type [interface{}] handed to the encoder *)

(** [type ErrBody struct { Code string; Msg string }] *)
Record ErrBody : Type := mkErrBody {
  eb_Code : string;
  eb_Msg : string
}.

Inductive value (Payload : Type) : Type :=
| VErrBody (eb : ErrBody)
| VEnvelope (code message : string)   (* the anonymous struct of WriteErrorResponse *)
| VPayload (p : Payload).
Arguments VErrBody {Payload} eb.
Arguments VEnvelope {Payload} code message.
Arguments VPayload {Payload} p.

(** The type assertion [v.(ErrBody)]. *)
Definition as_ErrBody {Payload : Type} (v : value Payload) : option ErrBody :=
  match v with
  | VErrBody eb => Some eb
  | _ => None
  end.

(** ** Library functions the package calls

    [errors.ErrorCode], [( *errors.Error).Error], [json.Unmarshal] into an
    [*errors.Error], [json.Marshal], [json.MarshalIndent(v, "", "\t")],
    the media type returned by [mime.ParseMediaType] and the [%q] verb of
    [fmt] on a string. *)

Record Library (Payload : Type) : Type := mkLibrary {
  errors_ErrorCode : error -> string;
  errors_Error_method : Error -> string;
  json_Unmarshal : string -> Error -> Error * option error;
  json_Marshal : value Payload -> string + error;
  json_MarshalIndent : value Payload -> string + error;
  mime_ParseMediaType : string -> string;
  fmt_q : string -> string
}.
Arguments errors_ErrorCode {Payload} _ _.
Arguments errors_Error_method {Payload} _ _.
Arguments json_Unmarshal {Payload} _ _ _.
Arguments json_Marshal {Payload} _ _.
Arguments json_MarshalIndent {Payload} _ _.
Arguments mime_ParseMediaType {Payload} _ _.
Arguments fmt_q {Payload} _ _.

(** [err.Error()] for any error. *)
Definition error_Error {Payload : Type} (L : Library Payload) (err : error) : string :=
  match err with
  | errorString text => text
  | platformError c m e => errors_Error_method L {| Code := c; Msg := m; Err := e |}
  end.

(** ** Headers ([http.Header]) *)

(** [h.Get(key)]: the first value stored under [key], or the empty string. *)
Definition Header_Get (h : gmap string (list string)) (key : string) : string :=
  match h !! key with
  | Some (v :: _) => v
  | _ => ""
  end.

(** ** Collaborators: events and environment *)

(** The closer [Respond] and [Write] hand to [write]. *)
Inductive WriteCloser : Type :=
| noopCloser                (* [noopCloser{Writer: w}] *)
| gzipWriter (id : nat).    (* the result of one call [gzip.NewWriter(w)] *)

(** A logger is known by the fields [WithField] attached to it. *)
Definition Logger : Type := list (string * string).

Definition WithField (key val : string) (l : Logger) : Logger := l ++ [(key, val)].

Inductive event : Type :=
| HeaderSet (key val : string)            (* [w.Header().Set(key, val)] *)
| WriteHeader (statusCode : Z)            (* [w.WriteHeader(statusCode)] *)
| Write (b : string)                      (* [w.Write(b)] *)
| Flush                                   (* [w.(http.Flusher).Flush()] *)
| GzipNewWriter (id : nat)                (* [gzip.NewWriter(w)] *)
| GzipWrite (id : nat) (b : string)       (* [Write(b)] on that gzip writer *)
| GzipClose (id : nat)                    (* [Close()] on that gzip writer *)
| NoopClose                               (* [noopCloser.Close()] *)
| Log (level : string) (fields : Logger) (msg : string) (err : error).

(** What the collaborators answer, given the calls made so far. *)
Record Env : Type := mkEnv {
  sink_Write : list event -> string -> Z * option error;
  sink_is_Flusher : bool;
  gzip_Write : list event -> nat -> string -> Z * option error;
  gzip_Close : list event -> nat -> option error
}.

(** ** Computations: a history of events, and how the call ended *)

Inductive outcome (A : Type) : Type :=
| Done (a : A)
| Panic (reason : string)
| OutOfFuel.
Arguments Done {A} a.
Arguments Panic {A} reason.
Arguments OutOfFuel {A}.

Definition M (A : Type) : Type := list event -> outcome A * list event.

Definition ret {A : Type} (a : A) : M A := fun h => (Done a, h).

Definition bind {A B : Type} (c : M A) (k : A -> M B) : M B :=
  fun h =>
    match c h with
    | (Done a, h') => k a h'
    | (Panic s, h') => (Panic s, h')
    | (OutOfFuel, h') => (OutOfFuel, h')
    end.

#[global] Instance M_ret : MRet M := @ret.
#[global] Instance M_bind : MBind M := fun A B k c => bind c k.

Definition emit (e : event) : M unit := fun h => (Done tt, h ++ [e]).

Definition panic {A : Type} (reason : string) : M A := fun h => (Panic reason, h).

Definition out_of_fuel {A : Type} : M A := fun h => (OutOfFuel, h).

Definition nil_dereference : string := "invalid memory address or nil pointer dereference".

(** [defer d; body]: [d] runs when [body] returns or panics. *)
Definition defer_ {A B : Type} (d : M B) (body : M A) : M A :=
  fun h =>
    match body h with
    | (OutOfFuel, h') => (OutOfFuel, h')
    | (o, h') =>
        match d h' with
        | (Panic s, h'') => (Panic s, h'')
        | (_, h'') => (o, h'')
        end
    end.

(** The events a computation adds to a history. *)
Definition run {A : Type} (c : M A) (h : list event) : outcome A * list event := c h.

(** ** error_handler.go: [CheckError] and [firstLineAsError] *)

Definition newline : Ascii.ascii := Ascii.ascii_of_nat 10.

(** [buf.ReadString('\n')]: the bytes up to and including the first newline,
    or all of them when there is none (the [io.EOF] is dropped by the caller). *)
Fixpoint ReadString_newline (buf : string) : string :=
  match buf with
  | EmptyString => EmptyString
  | String c rest =>
      if Ascii.eqb c newline then String c EmptyString
      else String c (ReadString_newline rest)
  end.

(** [strings.TrimSuffix(s, suffix)] *)
Definition TrimSuffix (s suffix : string) : string :=
  let n := String.length s in
  let k := String.length suffix in
  if (k <=? n)%nat && String.eqb (String.substring (n - k) k s) suffix
  then String.substring 0 (n - k) s
  else s.

(** [firstLineAsError(buf)] *)
Definition firstLineAsError (buf : string) : error :=
  let line := ReadString_newline buf in
  errors_New (TrimSuffix line (String newline EmptyString)).

(** The parts of an [*http.Response] that [CheckError] reads.  [Body] is what
    [io.Copy] collects and [Body_err] the error it ends with, if any. *)
Record Response : Type := mkResponse {
  StatusCode : Z;
  Status : string;
  resp_Header : gmap string (list string);
  Body : string;
  Body_err : option error
}.

Section CheckError.
Context {Payload : Type}.
Variable L : Library Payload.
Variable E : ErrorCodes.
(** The reverse table, as [init] left it. *)
Variable httpStatusCodeToError : gmap Z string.

Definition set_Msg (perr : Error) (m : string) : Error :=
  {| Code := Code perr; Msg := m; Err := Err perr |}.
Definition set_Err (perr : Error) (e : option error) : Error :=
  {| Code := Code perr; Msg := Msg perr; Err := e |}.
Definition set_Code (perr : Error) (c : string) : Error :=
  {| Code := c; Msg := Msg perr; Err := Err perr |}.

(** The statements of [CheckError] after the first [switch]. *)
Definition CheckError_parse (resp : Response) : error :=
  let perr :=
    {| Code := StatusCodeToErrorCode E httpStatusCodeToError (StatusCode resp);
       Msg := ""; Err := None |} in
  if decide (StatusCode resp = http.StatusUnsupportedMediaType) then
    to_error (set_Msg perr
      ("invalid media type: " +:+ fmt_q L (Header_Get (resp_Header resp) "Content-Type")))
  else
    let contentType := Header_Get (resp_Header resp) "Content-Type" in
    let contentType :=
      if decide (contentType = "") then "application/json" else contentType in
    let mediatype := mime_ParseMediaType L contentType in
    match Body_err resp with
    | Some err =>
        to_error (set_Err (set_Msg perr "failed to read error response") (Some err))
    | None =>
        let buf := Body resp in
        let perr :=
          if decide (mediatype = "application/json") then
            match json_Unmarshal L buf perr with
            | (perr, Some err) =>
                set_Err
                  (set_Msg perr
                     ("attempted to unmarshal error as JSON but failed: "
                        +:+ fmt_q L (error_Error L err)))
                  (Some (firstLineAsError buf))
            | (perr, None) => perr
            end
          else set_Err perr (Some (firstLineAsError buf)) in
        let perr :=
          if decide (Code perr = "") then
            set_Code perr
              (StatusCodeToErrorCode E httpStatusCodeToError (StatusCode resp))
          else perr in
        to_error perr
    end.

(** [CheckError(resp)]; [None] is the nil error. *)
Definition CheckError (resp : Response) : option error :=
  let class := Z.quot (StatusCode resp) 100 in
  if decide (class = 4 \/ class = 5) then Some (CheckError_parse resp)
  else if decide (class = 2) then None
  else
    Some (to_error
      {| Code := EInternal E;
         Msg := "unexpected status code: " +:+ pretty (StatusCode resp)
                  +:+ " " +:+ Status resp;
         Err := None |}).
End CheckError.

(** ** Calls on the collaborators *)

(** [w.Write(b)]: the sink answers [(n, err)]. *)
Definition w_Write (env : Env) (b : string) : M (Z * option error) :=
  fun h => (Done (sink_Write env h b), h ++ [Write b]).

(** [gzip.NewWriter(w)]: the new writer is named after its place in the history. *)
Definition gzip_NewWriter : M WriteCloser :=
  fun h => (Done (gzipWriter (length h)), h ++ [GzipNewWriter (length h)]).

(** [wc.Write(b)]; [noopCloser] embeds the sink, so its [Write] is [w.Write]. *)
Definition wc_Write (env : Env) (wc : WriteCloser) (b : string) : M (Z * option error) :=
  match wc with
  | noopCloser => w_Write env b
  | gzipWriter id => fun h => (Done (gzip_Write env h id b), h ++ [GzipWrite id b])
  end.

(** [wc.Close()]; [func (n noopCloser) Close() error { return nil }]. *)
Definition wc_Close (env : Env) (wc : WriteCloser) : M (option error) :=
  match wc with
  | noopCloser => emit NoopClose ;; mret None
  | gzipWriter id => fun h => (Done (gzip_Close env h id), h ++ [GzipClose id])
  end.

(** A method call on a logger held in an interface field that may be nil. *)
Definition log_call (lg : option Logger) (level : string)
    (fields : list (string * string)) (msg : string) (err : error) : M unit :=
  match lg with
  | None => panic nil_dereference
  | Some l => emit (Log level (l ++ fields) msg err)
  end.

(** ** error_handler.go: [WriteErrorResponse] and [HandleHTTPError] *)

Definition PlatformErrorCodeHeader : string := "X-Platform-Error-Code".




Section ErrorResponse.
Context {Payload : Type}.
Variable L : Library Payload.
Variable E : ErrorCodes.
Variable env : Env.

(** [WriteErrorResponse(ctx, w, code, msg)] *)
Definition WriteErrorResponse (ctx : Context) (code msg : string) : M unit :=
  emit (HeaderSet PlatformErrorCodeHeader code) ;;
  emit (HeaderSet "Content-Type" "application/json; charset=utf-8") ;;
  emit (WriteHeader (ErrorCodeToStatusCode E ctx code)) ;;
  let b :=
    match json_Marshal L (VEnvelope code msg) with
    | inl b => b
    | inr _ => ""
    end in
  w_Write env b ;;
  mret tt.

End ErrorResponse.

(** ** The status response writer *)

(** Go's [int] is 64 bits wide here; sums wrap around. *)
Definition int_wrap (z : Z) : Z := (z + 2 ^ 63) `mod` 2 ^ 64 - 2 ^ 63.

(** The embedded [http.ResponseWriter] is the sink of the history. *)
Record StatusResponseWriter : Type := mkStatusResponseWriter {
  statusCode : Z;
  responseBytes : Z
}.

(** [NewStatusResponseWriter(w)] *)
Definition NewStatusResponseWriter : StatusResponseWriter :=
  {| statusCode := 0; responseBytes := 0 |}.

(** [w.Write(b)] *)
Definition srw_Write (env : Env) (w : StatusResponseWriter) (b : string)
    : M (StatusResponseWriter * (Z * option error)) :=
  r ← w_Write env b;
  mret ({| statusCode := statusCode w;
           responseBytes := int_wrap (responseBytes w + r.1) |}, r).

(** [w.Flush()] *)
Definition srw_Flush (env : Env) (w : StatusResponseWriter) : M StatusResponseWriter :=
  (if sink_is_Flusher env then emit Flush else mret tt) ;;
  mret w.

(** [w.WriteHeader(statusCode)] *)
Definition srw_WriteHeader (w : StatusResponseWriter) (code : Z)
    : M StatusResponseWriter :=
  let w := {| statusCode := code; responseBytes := responseBytes w |} in
  emit (WriteHeader code) ;;
  mret w.

(** [w.Code()] *)
Definition srw_Code (w : StatusResponseWriter) : Z :=
  let code := statusCode w in
  if decide (code = 0) then http.StatusOK else code.

(** [w.ResponseBytes()] *)
Definition srw_ResponseBytes (w : StatusResponseWriter) : Z := responseBytes w.

(** [w.StatusCodeClass()] *)
Definition srw_StatusCodeClass (w : StatusResponseWriter) : string :=
  let q := Z.quot (srw_Code w) 100 in
  if decide (q = 1) then "1XX"
  else if decide (q = 2) then "2XX"
  else if decide (q = 3) then "3XX"
  else if decide (q = 4) then "4XX"
  else if decide (q = 5) then "5XX"
  else "XXX".

(** The mutating methods, as data, to speak of sequences of operations. *)
Inductive srw_call : Type :=
| CallWrite (b : string)
| CallFlush
| CallWriteHeader (code : Z).

Definition srw_do (env : Env) (w : StatusResponseWriter) (c : srw_call)
    : M StatusResponseWriter :=
  match c with
  | CallWrite b => r ← srw_Write env w b; mret r.1
  | CallFlush => srw_Flush env w
  | CallWriteHeader code => srw_WriteHeader w code
  end.

Fixpoint srw_run (env : Env) (w : StatusResponseWriter) (calls : list srw_call)
    : M StatusResponseWriter :=
  match calls with
  | [] => mret w
  | c :: calls => w ← srw_do env w c; srw_run env w calls
  end.

(** The argument of the last [WriteHeader] of a sequence, if there is one. *)
Fixpoint last_WriteHeader (calls : list srw_call) : option Z :=
  match calls with
  | [] => None
  | c :: calls =>
      match last_WriteHeader calls with
      | Some code => Some code
      | None => match c with CallWriteHeader code => Some code | _ => None end
      end
  end.

(** ** middleware.go: [SetCORS] and [SkipOptions] *)

Record Request : Type := mkRequest {
  Method : string;
  Header : gmap string (list string);
  req_Context : Context
}.

(** An [http.Handler] serving on the sink of the history. *)
Definition Handler : Type := Request -> M unit.

Definition cors_methods : string := "POST, GET, OPTIONS, PUT, DELETE, PATCH".
Definition cors_headers : string :=
  "Accept, Content-Type, Content-Length, Accept-Encoding, Authorization, User-Agent".

(** [SetCORS(next)] *)
Definition SetCORS (next : Handler) : Handler :=
  fun r =>
    let origin := Header_Get (Header r) "Origin" in
    (if decide (origin <> "")
     then emit (HeaderSet "Access-Control-Allow-Origin" origin)
     else mret tt) ;;
    if decide (Method r = http.MethodOptions) then
      emit (HeaderSet "Access-Control-Allow-Methods" cors_methods) ;;
      emit (HeaderSet "Access-Control-Allow-Headers" cors_headers) ;;
      emit (WriteHeader http.StatusNoContent)
    else next r.

(** [SkipOptions(next)] *)
Definition SkipOptions (next : Handler) : Handler :=
  fun r =>
    let origin := Header_Get (Header r) "Origin" in
    if decide (origin = "" /\ Method r = http.MethodOptions) then
      emit (WriteHeader http.StatusMethodNotAllowed)
    else next r.

(** ** The API helper *)

(** [type API struct]; a nil function field is [None]. *)
Record API (Payload : Type) : Type := mkAPI {
  logger : option Logger;
  prettyJSON : bool;
  encodeGZIP : bool;
  unmarshalErrFn : option (string -> error -> option error);
  okErrFn : option (option error -> option error);
  errFn : option (Context -> error -> value Payload * Z * option error)
}.
Arguments mkAPI {Payload} _ _ _ _ _ _.
Arguments logger {Payload} _.
Arguments prettyJSON {Payload} _.
Arguments encodeGZIP {Payload} _.
Arguments unmarshalErrFn {Payload} _.
Arguments okErrFn {Payload} _.
Arguments errFn {Payload} _.

Section APIHelper.
Context {Payload : Type}.
Variable L : Library Payload.
Variable E : ErrorCodes.
Variable env : Env.

(** [type APIOptFn func( *API)] *)
Definition APIOptFn : Type := API Payload -> API Payload.

Definition WithLog (lg : option Logger) : APIOptFn :=
  fun api => mkAPI lg (prettyJSON api) (encodeGZIP api)
               (unmarshalErrFn api) (okErrFn api) (errFn api).

Definition WithErrFn
    (fn : option (Context -> error -> value Payload * Z * option error)) : APIOptFn :=
  fun api => mkAPI (logger api) (prettyJSON api) (encodeGZIP api)
               (unmarshalErrFn api) (okErrFn api) fn.

Definition WithOKErrFn (fn : option (option error -> option error)) : APIOptFn :=
  fun api => mkAPI (logger api) (prettyJSON api) (encodeGZIP api)
               (unmarshalErrFn api) fn (errFn api).

Definition WithPrettyJSON (b : bool) : APIOptFn :=
  fun api => mkAPI (logger api) b (encodeGZIP api)
               (unmarshalErrFn api) (okErrFn api) (errFn api).

Definition WithEncodeGZIP : APIOptFn :=
  fun api => mkAPI (logger api) (prettyJSON api) true
               (unmarshalErrFn api) (okErrFn api) (errFn api).

Definition WithUnmarshalErrFn (fn : option (string -> error -> option error))
    : APIOptFn :=
  fun api => mkAPI (logger api) (prettyJSON api) (encodeGZIP api)
               fn (okErrFn api) (errFn api).

(** The function literals [NewAPI] installs. *)
Definition default_unmarshalErrFn (encoding : string) (err : error) : option error :=
  Some (to_error
    {| Code := EInvalid E;
       Msg := "failed to unmarshal " +:+ encoding +:+ ": " +:+ error_Error L err;
       Err := None |}).

Definition default_errFn (ctx : Context) (err : error)
    : value Payload * Z * option error :=
  let msg := error_Error L err in
  let msg := if decide (msg = "") then "an internal error has occurred" else msg in
  let code := errors_ErrorCode L err in
  (VErrBody {| eb_Code := code; eb_Msg := msg |},
   ErrorCodeToStatusCode E ctx code, None).

(** [NewAPI(opts...)] *)
Definition NewAPI (opts : list APIOptFn) : API Payload :=
  let api :=
    {| logger := None;
       prettyJSON := true;
       encodeGZIP := false;
       unmarshalErrFn := Some default_unmarshalErrFn;
       okErrFn := None;
       errFn := Some default_errFn |} in
  foldl (fun api o => o api) api opts.

(** [a.decode(encoding, dec, v)].  [a] is a pointer and may be nil.  The
    decoder [dec] fills the target and may fail; [oker] is the target's [OK]
    method when its type has one. *)
Definition decode {V : Type} (a : option (API Payload)) (encoding : string)
    (dec : V -> V * option error) (oker : option (V -> option error)) (v : V)
    : V * option error :=
  match dec v with
  | (v, Some err) =>
      match a ≫= unmarshalErrFn with
      | Some fn => (v, fn encoding err)
      | None => (v, Some err)
      end
  | (v, None) =>
      match oker with
      | Some OK =>
          let err := OK v in
          match a ≫= okErrFn with
          | Some fn => (v, fn err)
          | None => (v, err)
          end
      | None => (v, None)
      end
  end.

(** [a.DecodeJSON(r, v)] and [a.DecodeGob(r, v)]; the decoders are the
    libraries', built over the reader [r]. *)
Definition DecodeJSON {V : Type} (json_NewDecoder : string -> V -> V * option error)
    (a : option (API Payload)) (r : string)
    (oker : option (V -> option error)) (v : V) : V * option error :=
  decode a "json" (json_NewDecoder r) oker v.

Definition DecodeGob {V : Type} (gob_NewDecoder : string -> V -> V * option error)
    (a : option (API Payload)) (r : string)
    (oker : option (V -> option error)) (v : V) : V * option error :=
  decode a "gob" (gob_NewDecoder r) oker v.

(** [a.logger.WithField("api", "write").Error(msg, err)] *)
Definition api_log_write (a : option (API Payload)) (msg : string) (err : error)
    : M unit :=
  match a with
  | None => panic nil_dereference
  | Some api => log_call (logger api) "error" [("api", "write")] msg err
  end.

(** [a.write(w, wc, status, b)] *)
Definition write (a : option (API Payload)) (wc : WriteCloser) (status : Z)
    (b : string) : M unit :=
  emit (WriteHeader status) ;;
  r ← wc_Write env wc b;
  match r.2 with
  | Some err => api_log_write a "failed to write to response writer: " err
  | None => mret tt
  end ;;
  cerr ← wc_Close env wc;
  match cerr with
  | Some err => api_log_write a "failed to close response writer" err
  | None => mret tt
  end.

(** The closer selection shared by [Respond] and [Write]. *)
Definition select_writer (a : option (API Payload)) (writer : WriteCloser)
    : M WriteCloser :=
  match a with
  | Some api =>
      if encodeGZIP api then
        emit (HeaderSet "Content-Encoding" "gzip") ;;
        gzip_NewWriter
      else mret writer
  | None => mret writer
  end.

(** [a.Write(w, status, b)] *)
Definition API_Write (a : option (API Payload)) (status : Z) (b : string) : M unit :=
  if decide (status = http.StatusNoContent) then emit (WriteHeader status)
  else
    let writer := noopCloser in
    defer_ (wc_Close env writer)
      (writer ← select_writer a writer;
       write a writer status b).

(** [a.Respond(w, r, status, v)], with the method [Err] it calls on a marshal
    failure as an argument. *)
Definition Respond_with
    (Err_ : option (API Payload) -> Request -> option error -> M unit)
    (a : option (API Payload)) (r : Request) (status : Z) (v : value Payload)
    : M unit :=
  if decide (status = http.StatusNoContent) then emit (WriteHeader status)
  else
    let writer := noopCloser in
    defer_ (wc_Close env writer)
      (writer ← select_writer a writer;
       emit (HeaderSet "Content-Type" "application/json; charset=utf-8") ;;
       let res :=
         match a with
         | Some api =>
             if prettyJSON api then json_MarshalIndent L v else json_Marshal L v
         | None => json_MarshalIndent L v
         end in
       match res with
       | inr err => Err_ a r (Some err)
       | inl b => write a writer status b
       end).

(** [a.Err(w, r, err)].  [Respond] and [Err] call each other; [fuel] bounds
    the number of nested calls of [Err]. *)
Fixpoint API_Err (fuel : nat) (a : option (API Payload)) (r : Request)
    (err : option error) : M unit :=
  match err with
  | None => mret tt
  | Some err =>
      match fuel with
      | O => out_of_fuel
      | S fuel =>
          match a with
          | None => panic nil_dereference
          | Some api =>
              match errFn api with
              | None => panic nil_dereference
              | Some fn =>
                  let '(v, status, ferr) := fn (req_Context r) err in
                  match ferr with
                  | Some ferr =>
                      log_call (logger api) "error" []
                        "failed to write err to response writer" ferr ;;
                      Respond_with (API_Err fuel) a r http.StatusInternalServerError
                        (VErrBody {| eb_Code := "internal error";
                                     eb_Msg := "an unexpected error occurred" |})
                  | None =>
                      match as_ErrBody v with
                      | Some eb => emit (HeaderSet PlatformErrorCodeHeader (eb_Code eb))
                      | None => mret tt
                      end ;;
                      Respond_with (API_Err fuel) a r status v
                  end
              end
          end
      end
  end.

(** [a.Respond(w, r, status, v)] *)
Definition Respond (fuel : nat) (a : option (API Payload)) (r : Request)
    (status : Z) (v : value Payload) : M unit :=
  Respond_with (API_Err fuel) a r status v.
End APIHelper.

(** ** What the statements ask of the libraries *)

(** The double quote character, as a string. *)
Definition dq : string := String (Ascii.ascii_of_nat 34) EmptyString.

(** The JSON document with a code of [not found] and a message of [x]:
    an opening brace, the two quoted fields and a closing brace. *)
Definition not_found_body : string :=
  "{" +:+ dq +:+ "code" +:+ dq +:+ ":" +:+ dq +:+ "not found" +:+ dq +:+ ","
      +:+ dq +:+ "message" +:+ dq +:+ ":" +:+ dq +:+ "x" +:+ dq +:+ "}".

(** [json.Unmarshal] of [doc] into a fresh [*errors.Error] succeeds and
    leaves [code] and [msg] in it. *)
Definition decodes_to {Payload : Type} (L : Library Payload)
    (doc code msg : string) : Prop :=
  forall seed,
    json_Unmarshal L doc {| Code := seed; Msg := ""; Err := None |}
    = ({| Code := code; Msg := msg; Err := None |}, None).

(** [Error()] of an application error that only has a message is the message,
    and of one that only wraps an error is the text of that error. *)
Definition Error_method_contract {Payload : Type} (L : Library Payload) : Prop :=
  (forall c m, m <> "" ->
     errors_Error_method L {| Code := c; Msg := m; Err := None |} = m) /\
  (forall c e,
     errors_Error_method L {| Code := c; Msg := ""; Err := Some e |} = error_Error L e).



(** ** Concrete collaborators

    Instances on which the statements below are exercised: one choice of
    pairwise distinct error-code strings, and library functions behaving as
    packages [errors], [encoding/json] and [mime] are documented to on the
    inputs used. *)

Module Sample.
Definition codes : ErrorCodes :=
  {| EInternal := "internal error";
     ENotImplemented := "not implemented";
     EBadGateway := "bad gateway";
     EInvalid := "invalid";
     EUnprocessableEntity := "unprocessable entity";
     EEmptyValue := "empty value";
     EConflict := "conflict";
     ENotFound := "not found";
     EUnavailable := "unavailable";
     EForbidden := "forbidden";
     ETooManyRequests := "too many requests";
     EUnauthorized := "unauthorized";
     EMethodNotAllowed := "method not allowed";
     ETooLarge := "request too large";
     EPaymentRequired := "payment required";
     EUpgradeRequired := "upgrade required";
     EStatusLocked := "locked" |}.

(** [errors.ErrorCode]: the code of an application error, looking into the
    wrapped error when the code is empty; the internal code otherwise. *)
Fixpoint ErrorCode (err : error) : string :=
  match err with
  | errorString _ => EInternal codes
  | platformError c _ e =>
      if decide (c = "") then
        match e with
        | Some e => ErrorCode e
        | None => EInternal codes
        end
      else c
  end.

(** [Error()] on an application error. *)
Fixpoint error_text (err : error) : string :=
  match err with
  | errorString text => text
  | platformError c m e =>
      match e with
      | Some e =>
          if decide (m = "") then error_text e else m +:+ ": " +:+ error_text e
      | None => if decide (m = "") then "<" +:+ c +:+ ">" else m
      end
  end.

Definition Error_method (e : Error) : string := error_text (to_error e).

(** A decoder that knows this one document and rejects everything else. *)
Definition Unmarshal (buf : string) (perr : Error) : Error * option error :=
  if decide (buf = not_found_body)
  then ({| Code := "not found"; Msg := "x"; Err := None |}, None)
  else (perr, Some (errorString "invalid character looking for beginning of value")).

(** An encoder for the two-field shapes; payloads are strings, of which the
    empty one stands for a value the encoder rejects. *)
Definition encode_fields (code message : string) : string :=
  "{" +:+ dq +:+ "code" +:+ dq +:+ ":" +:+ dq +:+ code +:+ dq +:+ ","
      +:+ dq +:+ "message" +:+ dq +:+ ":" +:+ dq +:+ message +:+ dq +:+ "}".

Definition dq_wrapped (s : string) : string := dq +:+ s +:+ dq.

Definition Marshal (v : value string) : string + error :=
  match v with
  | VErrBody eb => inl (encode_fields (eb_Code eb) (eb_Msg eb))
  | VEnvelope c m => inl (encode_fields c m)
  | VPayload p =>
      if decide (p = "") then inr (errorString "json: unsupported type")
      else inl (dq_wrapped p)
  end.

(** The media type: the text before the first [;]. *)
Fixpoint ParseMediaType (s : string) : string :=
  match s with
  | EmptyString => EmptyString
  | String c rest =>
      if Ascii.eqb c (Ascii.ascii_of_nat 59) then EmptyString
      else String c (ParseMediaType rest)
  end.

Definition lib : Library string :=
  {| errors_ErrorCode := ErrorCode;
     errors_Error_method := Error_method;
     json_Unmarshal := Unmarshal;
     json_Marshal := Marshal;
     json_MarshalIndent := Marshal;
     mime_ParseMediaType := ParseMediaType;
     fmt_q := fun s => dq +:+ s +:+ dq |}.

(** A sink and a gzip writer that never fail. *)
Definition quiet : Env :=
  {| sink_Write := fun _ b => (Z.of_nat (String.length b), None);
     sink_is_Flusher := true;
     gzip_Write := fun _ _ b => (Z.of_nat (String.length b), None);
     gzip_Close := fun _ _ => None |}.

(** A sink on which every write fails. *)
Definition broken : Env :=
  {| sink_Write := fun _ _ => (0, Some (errorString "broken pipe"));
     sink_is_Flusher := false;
     gzip_Write := fun _ _ _ => (0, Some (errorString "broken pipe"));
     gzip_Close := fun _ _ => Some (errorString "broken pipe") |}.
End Sample.

(** ** Sample responses and requests *)

Module Fixture.
Definition table : gmap Z string :=
  init_from (map_to_list (apiErrorToStatusCode Sample.codes)).

Definition resp_ok : Response :=
  {| StatusCode := 200; Status := "200 OK"; resp_Header := ∅;
     Body := ""; Body_err := None |}.

Definition resp_not_found : Response :=
  {| StatusCode := 404; Status := "404 Not Found";
     resp_Header := {[ "Content-Type" := ["application/json"] ]};
     Body := not_found_body; Body_err := None |}.

Definition resp_boom : Response :=
  {| StatusCode := 500; Status := "500 Internal Server Error";
     resp_Header := {[ "Content-Type" := ["text/plain; charset=utf-8"] ]};
     Body := "boom" +:+ String newline "second line"; Body_err := None |}.
End Fixture.

(** ** Reading histories *)

(** The order of calls the method [Marshal]s with: [a == nil || a.prettyJSON]. *)
Definition marshal_for {Payload : Type} (L : Library Payload)
    (a : option (API Payload)) (v : value Payload) : string + error :=
  match a with
  | Some api => if prettyJSON api then json_MarshalIndent L v else json_Marshal L v
  | None => json_MarshalIndent L v
  end.

(** [a != nil && a.encodeGZIP] *)
Definition uses_gzip {Payload : Type} (a : option (API Payload)) : bool :=
  match a with
  | Some api => encodeGZIP api
  | None => false
  end.

(** A call that reaches the client: a status line or body bytes. *)
Definition commits (e : event) : bool :=
  match e with
  | WriteHeader _ | Write _ | GzipWrite _ _ | GzipClose _ | Flush => true
  | _ => false
  end.

(** A call on the response sink or on a gzip writer over it, as opposed to a
    log record or the closing of a [noopCloser]. *)
Definition on_sink (e : event) : bool :=
  match e with
  | Log _ _ _ _ | NoopClose => false
  | _ => true
  end.

(** The part of a history the client can observe. *)
Fixpoint sink_view (h : list event) : list event :=
  match h with
  | [] => []
  | e :: h => if on_sink e then e :: sink_view h else sink_view h
  end.

Definition is_GzipClose (id : nat) (e : event) : bool :=
  match e with
  | GzipClose j => Nat.eqb j id
  | _ => false
  end.

Definition is_NoopClose (e : event) : bool :=
  match e with
  | NoopClose => true
  | _ => false
  end.

(** How many events of a history satisfy [p]. *)
Fixpoint count (p : event -> bool) (h : list event) : nat :=
  match h with
  | [] => O
  | e :: h => if p e then S (count p h) else count p h
  end.


(** The record [a.write] logs when a write or a close fails. *)
Definition write_failure_log (lg : Logger) (msg : string) (err : option error)
    : list event :=
  match err with
  | Some err => [Log "error" (lg ++ [("api", "write")]) msg err]
  | None => []
  end.

(** ** Sample requests, handlers and decoders *)

Module Cases.
Definition preflight : Request :=
  {| Method := "OPTIONS";
     Header := {[ "Origin" := ["https://app.example"] ]};
     req_Context := Background |}.

Definition fetch : Request :=
  {| Method := "GET";
     Header := {[ "Origin" := ["https://app.example"] ]};
     req_Context := Background |}.

(** A handler that writes a status and a body. *)
Definition hello : Handler :=
  fun _ => emit (WriteHeader 200) ;; emit (Write "hello").

(** A decoder over a reader [r] that rejects the empty input and otherwise
    stores the input in the target. *)
Definition NewDecoder (r : string) (v : string) : string * option error :=
  if decide (r = "") then (v, Some (errorString "EOF")) else (r, None).

(** An [OK] method that rejects the empty object. *)
Definition OK (v : string) : option error :=
  if decide (v = "{}") then Some (errorString "name is required") else None.

(** [NewAPI(WithEncodeGZIP(), WithLog(logger))] *)
Definition zipped : API string :=
  NewAPI Sample.lib Sample.codes [WithEncodeGZIP; WithLog (Some [])].
End Cases.

(** Unfolds the operations of [M], so that a computation applied to a history
    reduces to its outcome and final history. *)
Ltac unfold_M :=
  unfold mbind, M_bind, bind, mret, M_ret, ret, emit, panic, out_of_fuel,
    defer_, run in *.

(** The bytes [WriteErrorResponse] writes for a code and a message: the
    encoding of the two-field envelope, or nothing if the encoder fails. *)
Definition envelope_bytes {Payload : Type} (L : Library Payload)
    (code msg : string) : string :=
  match json_Marshal L (VEnvelope code msg) with
  | inl b => b
  | inr _ => ""
  end.

(** The calls [WriteErrorResponse] makes on the sink. *)
Definition error_response {Payload : Type} (L : Library Payload) (E : ErrorCodes)
    (ctx : Context) (code msg : string) : list event :=
  [ HeaderSet PlatformErrorCodeHeader code;
    HeaderSet "Content-Type" "application/json; charset=utf-8";
    WriteHeader (ErrorCodeToStatusCode E ctx code);
    Write (envelope_bytes L code msg) ].

(** ** What [Respond] and [Write] do around the marshalling *)

Section Shapes.
Context {Payload : Type}.
Variable env : Env.

(** The calls of [Respond] from its entry to the marshalling, made from the
    history [h]: the closer selection and the content type. *)
Definition respond_preamble (a : option (API Payload)) (h : list event)
    : list event :=
  (if uses_gzip a
   then [HeaderSet "Content-Encoding" "gzip"; GzipNewWriter (S (length h))]
   else [])
  ++ [HeaderSet "Content-Type" "application/json; charset=utf-8"].

(** The calls of [Write] before it hands over to [write]. *)
Definition write_preamble (a : option (API Payload)) (h : list event)
    : list event :=
  if uses_gzip a
  then [HeaderSet "Content-Encoding" "gzip"; GzipNewWriter (S (length h))]
  else [].

(** The closer those calls select. *)
Definition selected_writer (a : option (API Payload)) (h : list event)
    : WriteCloser :=
  if uses_gzip a then gzipWriter (S (length h)) else noopCloser.

Definition write_event (wc : WriteCloser) (b : string) : event :=
  match wc with
  | noopCloser => Write b
  | gzipWriter id => GzipWrite id b
  end.

Definition write_answer (h : list event) (wc : WriteCloser) (b : string)
    : option error :=
  match wc with
  | noopCloser => (sink_Write env h b).2
  | gzipWriter id => (gzip_Write env h id b).2
  end.

Definition close_event (wc : WriteCloser) : event :=
  match wc with
  | noopCloser => NoopClose
  | gzipWriter id => GzipClose id
  end.

Definition close_answer (h : list event) (wc : WriteCloser) : option error :=
  match wc with
  | noopCloser => None
  | gzipWriter id => gzip_Close env h id
  end.

(** The history [a.write] leaves when the configuration has the logger [lg]:
    the status, the bytes, a record if writing them failed, the close, a
    record if closing failed. *)
Definition write_trace (lg : Logger) (wc : WriteCloser) (status : Z) (b : string)
    (h : list event) : list event :=
  let h1 := h ++ [WriteHeader status] in
  let h2 := (h1 ++ [write_event wc b])
              ++ write_failure_log lg "failed to write to response writer: "
                   (write_answer h1 wc b) in
  (h2 ++ [close_event wc])
    ++ write_failure_log lg "failed to close response writer" (close_answer h2 wc).
End Shapes.


(** The events of [h'] past the first [length h]. *)
Definition added (h h' : list event) : list event := drop (length h) h'.


(** The effect of one call on the header map [w.Header()]. *)
Definition set_header (m : gmap string string) (e : event) : gmap string string :=
  match e with
  | HeaderSet key val => <[key := val]> m
  | _ => m
  end.

(** The header map after a history, from an empty one. *)
Definition headers_after (h : list event) : gmap string string :=
  foldl set_header ∅ h.

(** The byte strings handed to the sink, or to a gzip writer over it. *)
Fixpoint body_writes (h : list event) : list string :=
  match h with
  | [] => []
  | Write b :: h => b :: body_writes h
  | GzipWrite _ b :: h => b :: body_writes h
  | _ :: h => body_writes h
  end.

(** No byte of [s] is a newline. *)
Fixpoint newline_free (s : string) : bool :=
  match s with
  | EmptyString => true
  | String c s => negb (Ascii.eqb c newline) && newline_free s
  end.

(** ** Reading sequences of writer calls *)

(** The call a [StatusResponseWriter] method makes on the wrapped writer. *)
Definition forwarded_call (env : Env) (c : srw_call) : list event :=
  match c with
  | CallWrite b => [Write b]
  | CallFlush => if sink_is_Flusher env then [Flush] else []
  | CallWriteHeader code => [WriteHeader code]
  end.

(** The calls a sequence of methods makes on the wrapped writer. *)
Fixpoint forwarded (env : Env) (calls : list srw_call) : list event :=
  match calls with
  | [] => []
  | c :: calls => forwarded_call env c ++ forwarded env calls
  end.

(** The sum of the byte counts the wrapped writer answers to the [Write]s of
    a sequence of methods started from the history [h]. *)
Fixpoint reported (env : Env) (h : list event) (calls : list srw_call) : Z :=
  match calls with
  | [] => 0
  | c :: calls =>
      match c with
      | CallWrite b => (sink_Write env h b).1
      | _ => 0
      end + reported env (h ++ forwarded_call env c) calls
  end.

(** ** Reading configurations and what [write] adds *)

(** The functional options of the package, as data. *)
Inductive api_option (Payload : Type) : Type :=
| OptLog (lg : option Logger)
| OptErrFn (fn : option (Context -> error -> value Payload * Z * option error))
| OptOKErrFn (fn : option (option error -> option error))
| OptPrettyJSON (b : bool)
| OptEncodeGZIP
| OptUnmarshalErrFn (fn : option (string -> error -> option error)).
Arguments OptLog {Payload} lg.
Arguments OptErrFn {Payload} fn.
Arguments OptOKErrFn {Payload} fn.
Arguments OptPrettyJSON {Payload} b.
Arguments OptEncodeGZIP {Payload}.
Arguments OptUnmarshalErrFn {Payload} fn.

(** The option function each one stands for. *)
Definition option_fn {Payload : Type} (o : api_option Payload)
    : API Payload -> API Payload :=
  match o with
  | OptLog lg => WithLog lg
  | OptErrFn fn => WithErrFn fn
  | OptOKErrFn fn => WithOKErrFn fn
  | OptPrettyJSON b => WithPrettyJSON b
  | OptEncodeGZIP => WithEncodeGZIP
  | OptUnmarshalErrFn fn => WithUnmarshalErrFn fn
  end.

(** The argument of the last [WithPrettyJSON] of a list of options. *)
Fixpoint last_pretty {Payload : Type} (os : list (api_option Payload))
    : option bool :=
  match os with
  | [] => None
  | o :: os =>
      match last_pretty os with
      | Some b => Some b
      | None => match o with OptPrettyJSON b => Some b | _ => None end
      end
  end.

(** Whether [WithEncodeGZIP] occurs in a list of options. *)
Fixpoint has_gzip {Payload : Type} (os : list (api_option Payload)) : bool :=
  match os with
  | [] => false
  | OptEncodeGZIP :: _ => true
  | _ :: os => has_gzip os
  end.

(** The events [a.write] adds when the configuration has the logger [lg]. *)
Definition write_added (env : Env) (lg : Logger) (wc : WriteCloser) (status : Z)
    (b : string) (h : list event) : list event :=
  let h1 := h ++ [WriteHeader status] in
  let log1 := write_failure_log lg "failed to write to response writer: "
                (write_answer env h1 wc b) in
  let h2 := (h1 ++ [write_event wc b]) ++ log1 in
  [WriteHeader status; write_event wc b] ++ log1 ++ [close_event wc]
    ++ write_failure_log lg "failed to close response writer"
         (close_answer env h2 wc).

(** An event that is neither the setting of a header nor a write of bytes. *)
Definition sets_nothing (e : event) : Prop :=
  match e with
  | HeaderSet _ _ | Write _ | GzipWrite _ _ => False
  | _ => True
  end.

(** An event that does not set the header [key]. *)
Definition keeps_header (key : string) (e : event) : Prop :=
  match e with
  | HeaderSet k _ => k <> key
  | _ => True
  end.

(** The content type [Respond] and [WriteErrorResponse] declare. *)
Definition json_content_type : string := "application/json; charset=utf-8".

(** An event that does not set [Content-Type] to anything but
    [json_content_type]. *)
Definition keeps_json (e : event) : Prop :=
  match e with
  | HeaderSet k v => k = "Content-Type" -> v = json_content_type
  | _ => True
  end.

(** A computation that only adds events satisfying [P]. *)
Definition adds_only {A : Type} (P : event -> Prop) (c : M A) : Prop :=
  forall h, exists o t, c h = (o, h ++ t) /\ Forall P t.

(** The value [Err] responds with when the error formatter itself fails. *)
Definition fallback_body : ErrBody :=
  {| eb_Code := "internal error"; eb_Msg := "an unexpected error occurred" |}.

(** ** Sample configurations of the error formatter *)

Module Formatters.
(** A formatter that fails. *)
Definition failing (ctx : Context) (err : error) : value string * Z * option error :=
  (VPayload "", 418, Some (errorString "formatter broke")).

(** A formatter whose value the encoder rejects. *)
Definition unencodable (ctx : Context) (err : error)
    : value string * Z * option error :=
  (VPayload "", 500, None).

(** [NewAPI(WithErrFn(failing), WithLog(logger))] *)
Definition api_failing : API string :=
  NewAPI Sample.lib Sample.codes [WithErrFn (Some failing); WithLog (Some [])].

(** [NewAPI(WithErrFn(unencodable), WithLog(logger))] *)
Definition api_unencodable : API string :=
  NewAPI Sample.lib Sample.codes [WithErrFn (Some unencodable); WithLog (Some [])].

(** [NewAPI(WithLog(logger))] *)
Definition api_logged : API string :=
  NewAPI Sample.lib Sample.codes [WithLog (Some [])].
End Formatters.

(** ** middleware.go: [UserAgent], [bodyEchoer] and [LoggingMW]

    [LoggingMW] hands the wrapped handler a [*StatusResponseWriter] in place
    of the writer and a [*bodyEchoer] in place of the request body, so the
    handler is described by what it asks of the two: a tree of calls, each
    continuing according to the answer it gets.  Among them are the type
    assertions a handler can make on the writer it is given, whose answers
    depend on the writer's dynamic type. *)

(** The optional interfaces of [net/http] a handler may assert its writer
    to. *)
Inductive Capability : Type :=
| Flusher          (* [http.Flusher] *)
| Hijacker         (* [http.Hijacker] *)
| Pusher           (* [http.Pusher] *)
| ReaderFrom       (* [io.ReaderFrom] *)
| CloseNotifier.   (* [http.CloseNotifier] *)

(** Whether the writer itself has the methods of an interface: [Flush] as
    the environment says, the others as [caps] says. *)
Definition has_capability (env : Env) (caps : Capability -> bool)
    (c : Capability) : bool :=
  match c with
  | Flusher => sink_is_Flusher env
  | _ => caps c
  end.

(** Whether [*StatusResponseWriter] has them: it declares [Flush], and the
    embedded [http.ResponseWriter] promotes [Header], [Write] and
    [WriteHeader] only. *)
Definition srw_has (c : Capability) : bool :=
  match c with
  | Flusher => true
  | _ => false
  end.

Inductive Prog : Type :=
| Return                                            (* the handler returns *)
| Panics (reason : string)                          (* the handler panics *)
| SetHeader (key val : string) (k : Prog)           (* [w.Header().Set(key, val)] *)
| DoWriteHeader (code : Z) (k : Prog)               (* [w.WriteHeader(code)] *)
| DoWrite (b : string) (k : Z * option error -> Prog)   (* [w.Write(b)] *)
| DoFlush (k : Prog)
    (* [if f, ok := w.(http.Flusher); ok { f.Flush() }] *)
| ReadBody (size : nat) (k : string * option error -> Prog)
    (* [r.Body.Read(p)] with [len(p) = size] *)
| CloseBody (k : option error -> Prog)              (* [r.Body.Close()] *)
| AssertType (c : Capability) (k : bool -> Prog).
    (* [_, ok := w.(I)] for the interface [I] of [c] *)

(** What the request body answers: to the [n]-th [Read] with a buffer of
    [size] bytes, and to [Close]. *)
Record BodyEnv : Type := mkBodyEnv {
  body_Read : nat -> nat -> string * option error;
  body_Close : option error
}.

(** The handler served with the writer and the body themselves; [n] counts
    the reads made of the body. *)
Fixpoint serve (env : Env) (caps : Capability -> bool) (body : BodyEnv)
    (p : Prog) (n : nat) (h : list event) : outcome unit * list event * nat :=
  match p with
  | Return => (Done tt, h, n)
  | Panics reason => (Panic reason, h, n)
  | SetHeader key val k => serve env caps body k n (h ++ [HeaderSet key val])
  | DoWriteHeader code k => serve env caps body k n (h ++ [WriteHeader code])
  | DoWrite b k =>
      match w_Write env b h with
      | (Done r, h') => serve env caps body (k r) n h'
      | (Panic reason, h') => (Panic reason, h', n)
      | (OutOfFuel, h') => (OutOfFuel, h', n)
      end
  | DoFlush k =>
      serve env caps body k n (if sink_is_Flusher env then h ++ [Flush] else h)
  | ReadBody size k => serve env caps body (k (body_Read body n size)) (S n) h
  | CloseBody k => serve env caps body (k (body_Close body)) n h
  | AssertType c k => serve env caps body (k (has_capability env caps c)) n h
  end.

(** The state of [LoggingMW]'s wrappers: the [StatusResponseWriter] and the
    buffer the [io.TeeReader] of the [bodyEchoer] writes to. *)
Record Wrapped : Type := mkWrapped {
  wr_writer : StatusResponseWriter;
  wr_buf : string
}.

(** The handler served with the [StatusResponseWriter] and the [bodyEchoer]:
    the writer's methods are those of the wrapper, [Header()] is promoted
    from the embedded writer, [Read] goes through the tee (what is read is
    also appended to the buffer), [Close] goes to the body, and a type
    assertion on the writer is answered by the type [*StatusResponseWriter]. *)
Fixpoint serve_wrapped (env : Env) (body : BodyEnv) (p : Prog) (s : Wrapped)
    (n : nat) (h : list event) : outcome unit * list event * nat * Wrapped :=
  match p with
  | Return => (Done tt, h, n, s)
  | Panics reason => (Panic reason, h, n, s)
  | SetHeader key val k => serve_wrapped env body k s n (h ++ [HeaderSet key val])
  | DoWriteHeader code k =>
      match srw_WriteHeader (wr_writer s) code h with
      | (Done w, h') =>
          serve_wrapped env body k {| wr_writer := w; wr_buf := wr_buf s |} n h'
      | (Panic reason, h') => (Panic reason, h', n, s)
      | (OutOfFuel, h') => (OutOfFuel, h', n, s)
      end
  | DoWrite b k =>
      match srw_Write env (wr_writer s) b h with
      | (Done (w, r), h') =>
          serve_wrapped env body (k r) {| wr_writer := w; wr_buf := wr_buf s |} n h'
      | (Panic reason, h') => (Panic reason, h', n, s)
      | (OutOfFuel, h') => (OutOfFuel, h', n, s)
      end
  | DoFlush k =>
      match srw_Flush env (wr_writer s) h with
      | (Done w, h') =>
          serve_wrapped env body k {| wr_writer := w; wr_buf := wr_buf s |} n h'
      | (Panic reason, h') => (Panic reason, h', n, s)
      | (OutOfFuel, h') => (OutOfFuel, h', n, s)
      end
  | ReadBody size k =>
      let r := body_Read body n size in
      serve_wrapped env body (k r)
        {| wr_writer := wr_writer s; wr_buf := wr_buf s +:+ r.1 |} (S n) h
  | CloseBody k => serve_wrapped env body (k (body_Close body)) s n h
  | AssertType c k => serve_wrapped env body (k (srw_has c)) s n h
  end.

(** Every type assertion the handler may make on its writer is answered by
    [*StatusResponseWriter] as by the writer itself. *)
Fixpoint assertions_agree (env : Env) (caps : Capability -> bool) (p : Prog)
    : Prop :=
  match p with
  | Return | Panics _ => True
  | SetHeader _ _ k | DoWriteHeader _ k | DoFlush k => assertions_agree env caps k
  | DoWrite _ k => forall r, assertions_agree env caps (k r)
  | ReadBody _ k => forall r, assertions_agree env caps (k r)
  | CloseBody k => forall r, assertions_agree env caps (k r)
  | AssertType c k =>
      has_capability env caps c = srw_has c /\
      forall ok, assertions_agree env caps (k ok)
  end.

(** A handler that takes over the connection when its writer is an
    [http.Hijacker] and answers 500 when it is not. *)
Definition hijack_or_fail : Prog :=
  AssertType Hijacker (fun ok => if ok then Return else DoWriteHeader 500 Return).

(** A handler that streams: it writes, and flushes if its writer is an
    [http.Flusher]. *)
Definition stream_chunk : Prog :=
  DoWrite "chunk" (fun _ => AssertType Flusher (fun ok => if ok then DoFlush Return else Return)).

(** [UserAgent(r)]; [ua_Name] is [ua.Parse(header).Name] of the user agent
    library. *)
Definition UserAgent (ua_Name : string -> string) (r : Request) : string :=
  let header := Header_Get (Header r) "User-Agent" in
  if decide (header = "") then "unknown" else ua_Name header.

(** The fields of the request [LoggingMW] logs besides those of [Request];
    [URL_Query] is what [r.URL.Query().Encode()] returns. *)
Record RequestInfo : Type := mkRequestInfo {
  Host : string;
  URL_Path : string;
  URL_Query : string;
  Proto : string;
  ContentLength : Z;
  RemoteAddr : string
}.

(** The record handed to the logger: its fields so far and the thirteen
    fields [LoggingMW] adds, in order. *)
Record AccessLog : Type := mkAccessLog {
  al_logger : Logger;
  al_method : string;
  al_host : string;
  al_path : string;
  al_query : string;
  al_proto : string;
  al_status_code : Z;
  al_response_size : Z;
  al_content_length : Z;
  al_referrer : string;
  al_remote : string;
  al_user_agent : string;
  al_took : Z;
  al_errReference : string
}.

(** The deferred function of [LoggingMW]: the record, from the request, the
    wrapper and the header map of the writer at that time.  [took] is
    [time.Since(start)]. *)
Definition access_log (ua_Name : string -> string) (lg : Logger) (r : Request)
    (info : RequestInfo) (took : Z) (srw : StatusResponseWriter)
    (headers : gmap string string) : AccessLog :=
  let errReferenceField := default "" (headers !! PlatformErrorCodeHeader) in
  let ip := Header_Get (Header r) "X-Forwarded-For" in
  let ip := if decide (ip = "") then RemoteAddr info else ip in
  {| al_logger := lg;
     al_method := Method r;
     al_host := Host info;
     al_path := URL_Path info;
     al_query := URL_Query info;
     al_proto := Proto info;
     al_status_code := srw_Code srw;
     al_response_size := srw_ResponseBytes srw;
     al_content_length := ContentLength info;
     al_referrer := Header_Get (Header r) "Referer";
     al_remote := ip;
     al_user_agent := UserAgent ua_Name r;
     al_took := took;
     al_errReference := errReferenceField |}.

(** [LoggingMW(logger)(next)] serving one request: the outcome, the history,
    and the record logged with [Info("request")] when the deferred function
    runs, which it does whether [next] returns or panics.  A nil logger makes
    the deferred function panic. *)
Definition LoggingMW (env : Env) (ua_Name : string -> string)
    (logger : option Logger) (next : Prog) (r : Request) (info : RequestInfo)
    (body : BodyEnv) (took : Z) (n : nat) (h : list event)
    : outcome unit * list event * option AccessLog :=
  let srw := NewStatusResponseWriter in
  match serve_wrapped env body next {| wr_writer := srw; wr_buf := "" |} n h with
  | (OutOfFuel, h', _, _) => (OutOfFuel, h', None)
  | (o, h', _, s) =>
      match logger with
      | None => (Panic nil_dereference, h', None)
      | Some lg =>
          (o, h',
           Some (access_log ua_Name lg r info took (wr_writer s) (headers_after h')))
      end
  end.

(** ** Reading what a handler did from the history *)

(** The argument of the last [WriteHeader] among the events [t]. *)
Fixpoint last_status (t : list event) : option Z :=
  match t with
  | [] => None
  | e :: t =>
      match last_status t with
      | Some code => Some code
      | None => match e with WriteHeader code => Some code | _ => None end
      end
  end.

(** The sum of the byte counts the writer answered to the [Write]s among the
    events [t], made from the history [h]. *)
Fixpoint answered (env : Env) (h : list event) (t : list event) : Z :=
  match t with
  | [] => 0
  | e :: t =>
      match e with
      | Write b => (sink_Write env h b).1
      | _ => 0
      end + answered env (h ++ [e]) t
  end.

(** The handler that does what [WriteErrorResponse] does. *)
Definition error_responder {Payload : Type} (L : Library Payload) (E : ErrorCodes)
    (ctx : Context) (code msg : string) : Prog :=
  SetHeader PlatformErrorCodeHeader code
    (SetHeader "Content-Type" "application/json; charset=utf-8"
       (DoWriteHeader (ErrorCodeToStatusCode E ctx code)
          (DoWrite (envelope_bytes L code msg) (fun _ => Return)))).


(** The events of [t] that hand bytes to a writer, each with its writer. *)
Fixpoint writes_of (t : list event) : list event :=
  match t with
  | [] => []
  | Write b :: t => Write b :: writes_of t
  | GzipWrite id b :: t => GzipWrite id b :: writes_of t
  | _ :: t => writes_of t
  end.

(** * Properties *)

(** ** The taxonomy *)

Section TaxonomyFacts.
Variable E : ErrorCodes.

Lemma lookup_taxonomy_entry (code : string) (status : Z) :
  distinct_codes E ->
  (code, status) ∈ apiErrorToStatusCode_entries E ->
  apiErrorToStatusCode E !! code = Some status.
Proof.
  intros Hd Hin. unfold apiErrorToStatusCode.
  by apply elem_of_list_to_map_1.
Qed.

Lemma lookup_taxonomy_unknown (code : string) :
  code ∉ taxonomy E -> apiErrorToStatusCode E !! code = None.
Proof.
  intros Hn. unfold apiErrorToStatusCode.
  by apply not_elem_of_list_to_map_1.
Qed.

Lemma lookup_taxonomy_known (code : string) :
  code ∈ taxonomy E -> is_Some (apiErrorToStatusCode E !! code).
Proof.
  intros Hin. destruct (apiErrorToStatusCode E !! code) eqn:Hl; [by eexists|].
  exfalso. unfold apiErrorToStatusCode in Hl.
  apply not_elem_of_list_to_map_2 in Hl. by apply Hl.
Qed.
End TaxonomyFacts.

(** C1.  [ErrorCodeToStatusCode] answers 499 under a cancelled context and
    408 under an expired one, whatever the code; under a context with
    neither signal it answers the status the taxonomy lists for the code, and
    500 for a code the taxonomy does not list. *)
Theorem ErrorCodeToStatusCode_resolves (E : ErrorCodes) (ctx : Context) (code : string) :
  distinct_codes E ->
  (ctx_Err ctx = Some Canceled -> ErrorCodeToStatusCode E ctx code = 499) /\
  (ctx_Err ctx = Some DeadlineExceeded -> ErrorCodeToStatusCode E ctx code = 408) /\
  (ctx_Err ctx = None ->
     (forall status, (code, status) ∈ apiErrorToStatusCode_entries E ->
        ErrorCodeToStatusCode E ctx code = status) /\
     (code ∉ taxonomy E -> ErrorCodeToStatusCode E ctx code = 500)).
Proof.
  intros Hd. unfold ErrorCodeToStatusCode.
  split; [|split].
  - by intros ->.
  - by intros ->.
  - intros ->. split.
    + intros status Hin. by rewrite (lookup_taxonomy_entry E code status Hd Hin).
    + intros Hn. by rewrite (lookup_taxonomy_unknown E code Hn).
Qed.

Lemma Sample_codes_distinct : distinct_codes Sample.codes.
Proof. unfold distinct_codes. apply (bool_decide_unpack _). vm_compute. exact I. Qed.

Lemma ErrorCodeToStatusCode_resolves_witness :
  ErrorCodeToStatusCode Sample.codes (mkContext (Some Canceled)) "not found" = 499 /\
  ErrorCodeToStatusCode Sample.codes Background "not found" = 404 /\
  ErrorCodeToStatusCode Sample.codes Background "teapot" = 500.
Proof.
  pose proof (ErrorCodeToStatusCode_resolves Sample.codes
                (mkContext (Some Canceled)) "not found" Sample_codes_distinct) as Hc.
  pose proof (ErrorCodeToStatusCode_resolves Sample.codes
                Background "not found" Sample_codes_distinct) as Hk.
  pose proof (ErrorCodeToStatusCode_resolves Sample.codes
                Background "teapot" Sample_codes_distinct) as Hu.
  split; [|split].
  - apply (proj1 Hc). reflexivity.
  - apply (proj1 (proj2 (proj2 Hk) eq_refl)).
    apply (bool_decide_unpack _). vm_compute. exact I.
  - apply (proj2 (proj2 (proj2 Hu) eq_refl)).
    apply (bool_decide_unpack _). vm_compute. exact I.
Defined.

(** ** The reverse table *)

Section Inversion.
Variable E : ErrorCodes.

(** Whatever the loop leaves under a status was either there before or is the
    key of a visited entry with that status. *)
Lemma invert_lookup_origin (visit : list (string * Z)) (acc : gmap Z string)
    (status : Z) (code : string) :
  foldl init_step acc visit !! status = Some code ->
  (code, status) ∈ visit \/ acc !! status = Some code.
Proof.
  revert acc. induction visit as [|[k v] visit IH]; intros acc Hl;
    unfold init_step in *; simpl in *.
  - by right.
  - destruct (IH _ Hl) as [Hin | Hacc].
    + left. by right.
    + destruct (decide (v = status)) as [->|Hne].
      * rewrite lookup_insert_eq in Hacc. injection Hacc as ->. left. by left.
      * rewrite lookup_insert_ne in Hacc by done. by right.
Qed.

(** A status carried by a visited entry ends up in the table. *)
Lemma invert_lookup_present (visit : list (string * Z)) (acc : gmap Z string)
    (status : Z) (code : string) :
  (code, status) ∈ visit ->
  is_Some (foldl init_step acc visit !! status).
Proof.
  revert acc. induction visit as [|[k v] visit IH]; intros acc Hin;
    unfold init_step in *; simpl.
  - by apply elem_of_nil in Hin.
  - apply elem_of_cons in Hin as [Heq | Hin].
    + injection Heq as <- <-.
      destruct (foldl init_step (<[status:=code]> acc) visit !! status)
        as [c|] eqn:Hl; [by eexists|].
      exfalso.
      assert (Hmono : forall (l : list (string * Z)) (a : gmap Z string),
                 is_Some (a !! status) ->
                 is_Some (foldl init_step a l !! status)).
      { clear. induction l as [|[k v] l IHl]; intros a Ha; simpl; [done|].
        unfold init_step at 2; simpl.
        apply IHl. destruct (decide (v = status)) as [->|Hne].
        - rewrite lookup_insert_eq. by eexists.
        - by rewrite lookup_insert_ne. }
      specialize (Hmono visit (<[status:=code]> acc)).
      rewrite Hl in Hmono. destruct Hmono as [? ?]; [|done].
      rewrite lookup_insert_eq. by eexists.
    + by apply IH.
Qed.

(** The table [init] builds maps every status of the taxonomy to one of the
    codes the taxonomy maps to that status, in every iteration order. *)
Lemma init_from_preimage (visit : list (string * Z)) (code : string) (status : Z) :
  range_order E visit ->
  apiErrorToStatusCode E !! code = Some status ->
  exists code', init_from visit !! status = Some code' /\
                apiErrorToStatusCode E !! code' = Some status.
Proof.
  intros Hv Hl. unfold range_order in Hv.
  assert (Hin : (code, status) ∈ visit).
  { rewrite Hv. by apply elem_of_map_to_list. }
  destruct (invert_lookup_present visit ∅ status code Hin) as [code' Hc'].
  exists code'. split; [exact Hc'|].
  destruct (invert_lookup_origin visit ∅ status code' Hc') as [Hin' | Hempty].
  - rewrite Hv in Hin'. by apply elem_of_map_to_list in Hin'.
  - by rewrite lookup_empty in Hempty.
Qed.
End Inversion.

(** C2.  For every code of the taxonomy and every order in which [init]
    may visit the forward table, mapping the code to its status, the status
    back to a code through the reverse table, and that code to a status again
    gives the status of the original code (under a context that is neither
    cancelled nor expired). *)
Theorem status_roundtrip_stable (E : ErrorCodes) (visit : list (string * Z))
    (ctx : Context) (code : string) :
  range_order E visit ->
  ctx_Err ctx = None ->
  code ∈ taxonomy E ->
  ErrorCodeToStatusCode E ctx
    (StatusCodeToErrorCode E (init_from visit) (ErrorCodeToStatusCode E ctx code))
  = ErrorCodeToStatusCode E ctx code.
Proof.
  intros Hv Hctx Hin.
  destruct (lookup_taxonomy_known E code Hin) as [status Hs].
  unfold ErrorCodeToStatusCode at 2 3. rewrite Hctx, Hs.
  destruct (init_from_preimage E visit code status Hv Hs) as (code' & Hr & Hf).
  unfold StatusCodeToErrorCode. rewrite Hr.
  unfold ErrorCodeToStatusCode. by rewrite Hctx, Hf.
Qed.

Lemma status_roundtrip_stable_witness :
  ErrorCodeToStatusCode Sample.codes Background
    (StatusCodeToErrorCode Sample.codes
       (init_from (map_to_list (apiErrorToStatusCode Sample.codes)))
       (ErrorCodeToStatusCode Sample.codes Background "conflict"))
  = ErrorCodeToStatusCode Sample.codes Background "conflict".
Proof.
  apply (status_roundtrip_stable Sample.codes
           (map_to_list (apiErrorToStatusCode Sample.codes)) Background "conflict").
  - unfold range_order. reflexivity.
  - reflexivity.
  - apply (bool_decide_unpack _). vm_compute. exact I.
Defined.

(** The two statuses that two codes share: the reverse table keeps one of
    the two codes, and which one depends on the order of the visit. *)
Lemma reverse_table_shared (E : ErrorCodes) (visit : list (string * Z)) :
  distinct_codes E ->
  range_order E visit ->
  (StatusCodeToErrorCode E (init_from visit) 400 = EInvalid E \/
   StatusCodeToErrorCode E (init_from visit) 400 = EEmptyValue E) /\
  (StatusCodeToErrorCode E (init_from visit) 422 = EUnprocessableEntity E \/
   StatusCodeToErrorCode E (init_from visit) 422 = EConflict E).
Proof.
  intros Hd Hv.
  assert (H400 : apiErrorToStatusCode E !! EInvalid E = Some 400).
  { apply lookup_taxonomy_entry; [exact Hd|].
    unfold apiErrorToStatusCode_entries. rewrite !elem_of_cons. do 3 right. by left. }
  assert (H422 : apiErrorToStatusCode E !! EUnprocessableEntity E = Some 422).
  { apply lookup_taxonomy_entry; [exact Hd|].
    unfold apiErrorToStatusCode_entries. rewrite !elem_of_cons. do 4 right. by left. }
  split.
  - destruct (init_from_preimage E visit _ _ Hv H400) as (c & Hr & Hf).
    unfold StatusCodeToErrorCode. rewrite Hr.
    apply elem_of_list_to_map_2 in Hf.
    unfold apiErrorToStatusCode_entries in Hf.
    repeat (apply elem_of_cons in Hf as [Hf|Hf]; [simplify_eq; tauto|]).
    by apply elem_of_nil in Hf.
  - destruct (init_from_preimage E visit _ _ Hv H422) as (c & Hr & Hf).
    unfold StatusCodeToErrorCode. rewrite Hr.
    apply elem_of_list_to_map_2 in Hf.
    unfold apiErrorToStatusCode_entries in Hf.
    repeat (apply elem_of_cons in Hf as [Hf|Hf]; [simplify_eq; tauto|]).
    by apply elem_of_nil in Hf.
Qed.

(** Both choices occur: two visiting orders of the same table. *)
Example reverse_table_depends_on_order :
  let visit := map_to_list (apiErrorToStatusCode Sample.codes) in
  range_order Sample.codes visit /\
  range_order Sample.codes (reverse visit) /\
  StatusCodeToErrorCode Sample.codes (init_from visit) 400
    <> StatusCodeToErrorCode Sample.codes (init_from (reverse visit)) 400.
Proof.
  split; [unfold range_order; reflexivity|]. split.
  - unfold range_order. apply reverse_Permutation.
  - vm_compute. discriminate.
Qed.

(** ** Reading an error response *)

Lemma firstLineAsError_boom (rest : string) :
  firstLineAsError "boom" = errors_New "boom" /\
  firstLineAsError ("boom" +:+ String newline rest) = errors_New "boom".
Proof. split; reflexivity. Qed.

Lemma Sample_Error_method_contract : Error_method_contract Sample.lib.
Proof.
  split.
  - intros c m Hm. simpl. unfold Sample.Error_method. simpl.
    by destruct (decide (m = "")).
  - intros c e. simpl. unfold Sample.Error_method. simpl.
    destruct e; reflexivity.
Qed.

(** C3.  [CheckError] answers nil for a 2xx response; for a 404 response
    whose body is the JSON document with code [not found] and message [x]
    (content type absent or [application/json]) it answers an application
    error with that code and that message; for a 500 response of a non-JSON
    content type whose body's first line is [boom] it answers an application
    error wrapping an error of text [boom], and [boom] is what its [Error()]
    returns. *)
Theorem CheckError_examples {Payload : Type} (L : Library Payload) (E : ErrorCodes)
    (httpStatusCodeToError : gmap Z string) :
  Error_method_contract L ->
  mime_ParseMediaType L "application/json" = "application/json" ->
  decodes_to L not_found_body "not found" "x" ->
  (forall resp, Z.quot (StatusCode resp) 100 = 2 ->
     CheckError L E httpStatusCodeToError resp = None) /\
  (forall resp,
     StatusCode resp = 404 ->
     Header_Get (resp_Header resp) "Content-Type" = "" \/
       Header_Get (resp_Header resp) "Content-Type" = "application/json" ->
     Body resp = not_found_body ->
     Body_err resp = None ->
     exists e,
       CheckError L E httpStatusCodeToError resp = Some e /\
       as_Error e = Some {| Code := "not found"; Msg := "x"; Err := None |} /\
       error_Error L e = "x") /\
  (forall resp rest,
     StatusCode resp = 500 ->
     Header_Get (resp_Header resp) "Content-Type" <> "" ->
     mime_ParseMediaType L (Header_Get (resp_Header resp) "Content-Type")
       <> "application/json" ->
     Body resp = "boom" \/ Body resp = "boom" +:+ String newline rest ->
     Body_err resp = None ->
     exists e,
       CheckError L E httpStatusCodeToError resp = Some e /\
       as_Error e =
         Some {| Code := StatusCodeToErrorCode E httpStatusCodeToError 500;
                 Msg := ""; Err := Some (errors_New "boom") |} /\
       error_Error L e = "boom").
Proof.
  intros [Hmsg Hwrap] Hmime Hdoc. split; [|split].
  - intros resp Hclass. unfold CheckError. rewrite Hclass.
    rewrite decide_False by (intros [?|?]; lia).
    by rewrite decide_True.
  - intros resp Hst Hct Hbody Hread.
    unfold CheckError. rewrite Hst.
    rewrite decide_True by (left; reflexivity).
    unfold CheckError_parse. rewrite Hst, Hread, Hbody.
    rewrite decide_False by (unfold http.StatusUnsupportedMediaType; lia).
    assert (Hmt : mime_ParseMediaType L
              (if decide (Header_Get (resp_Header resp) "Content-Type" = "")
               then "application/json"
               else Header_Get (resp_Header resp) "Content-Type")
            = "application/json").
    { destruct Hct as [-> | ->]; [by rewrite decide_True|].
      by rewrite decide_False. }
    rewrite Hmt.
    destruct (decide ("application/json" = "application/json")); [|done].
    rewrite (Hdoc (StatusCodeToErrorCode E httpStatusCodeToError 404)).
    simpl. destruct (decide ("not found" = "")) as [Hempty|_]; [discriminate Hempty|].
    eexists. split; [reflexivity|]. split; [reflexivity|].
    simpl. by apply Hmsg.
  - intros resp rest Hst Hct Hmt Hbody Hread.
    unfold CheckError. rewrite Hst.
    rewrite decide_True by (right; reflexivity).
    unfold CheckError_parse. rewrite Hst, Hread.
    rewrite decide_False by (unfold http.StatusUnsupportedMediaType; lia).
    destruct (decide (Header_Get (resp_Header resp) "Content-Type" = ""));
      [done|].
    destruct (decide (mime_ParseMediaType L
                (Header_Get (resp_Header resp) "Content-Type") = "application/json"));
      [done|].
    assert (Hline : firstLineAsError (Body resp) = errors_New "boom").
    { destruct Hbody as [-> | ->]; apply (firstLineAsError_boom rest). }
    rewrite Hline.
    eexists. split; [reflexivity|]. split.
    + by destruct (decide _).
    + destruct (decide _); simpl; apply Hwrap.
Qed.

Lemma Sample_decodes_not_found :
  decodes_to Sample.lib not_found_body "not found" "x".
Proof.
  intros seed. simpl. unfold Sample.Unmarshal.
  destruct (decide (not_found_body = not_found_body)); [reflexivity|done].
Qed.

Lemma CheckError_examples_witness :
  CheckError Sample.lib Sample.codes Fixture.table Fixture.resp_ok = None /\
  (exists e,
     CheckError Sample.lib Sample.codes Fixture.table Fixture.resp_not_found = Some e /\
     as_Error e = Some {| Code := "not found"; Msg := "x"; Err := None |} /\
     error_Error Sample.lib e = "x") /\
  (exists e,
     CheckError Sample.lib Sample.codes Fixture.table Fixture.resp_boom = Some e /\
     as_Error e =
       Some {| Code := StatusCodeToErrorCode Sample.codes Fixture.table 500;
               Msg := ""; Err := Some (errors_New "boom") |} /\
     error_Error Sample.lib e = "boom").
Proof.
  destruct (CheckError_examples Sample.lib Sample.codes Fixture.table
              Sample_Error_method_contract eq_refl Sample_decodes_not_found)
    as (Hok & Hjson & Htext).
  split; [|split].
  - apply Hok. reflexivity.
  - apply Hjson.
    + reflexivity.
    + right. vm_compute. reflexivity.
    + reflexivity.
    + reflexivity.
  - apply (Htext Fixture.resp_boom "second line").
    + reflexivity.
    + vm_compute. discriminate.
    + vm_compute. discriminate.
    + right. reflexivity.
    + reflexivity.
Defined.

(** ** The status response writer *)

(** The mutating methods always return, and leave in [statusCode] the
    argument of the last [WriteHeader], or what it held if there was none. *)
Lemma srw_run_statusCode (env : Env) (calls : list srw_call)
    (w0 : StatusResponseWriter) (h : list event) :
  exists w h',
    srw_run env w0 calls h = (Done w, h') /\
    statusCode w = default (statusCode w0) (last_WriteHeader calls).
Proof.
  revert w0 h. induction calls as [|c calls IH]; intros w0 h.
  - exists w0, h. split; reflexivity.
  - destruct c as [b| |code]; simpl; unfold_M; simpl.
    + unfold srw_Write, w_Write. unfold_M. simpl.
      destruct (IH {| statusCode := statusCode w0;
                      responseBytes :=
                        int_wrap (responseBytes w0 + (sink_Write env h b).1) |}
                   (h ++ [Write b])) as (w & h' & Hrun & Hcode).
      exists w, h'. rewrite Hrun. split; [reflexivity|].
      rewrite Hcode. simpl. by destruct (last_WriteHeader calls).
    + unfold srw_Flush. unfold_M.
      destruct (sink_is_Flusher env); simpl.
      * destruct (IH w0 (h ++ [Flush])) as (w & h' & Hrun & Hcode).
        exists w, h'. rewrite Hrun. split; [reflexivity|].
        rewrite Hcode. by destruct (last_WriteHeader calls).
      * destruct (IH w0 h) as (w & h' & Hrun & Hcode).
        exists w, h'. rewrite Hrun. split; [reflexivity|].
        rewrite Hcode. by destruct (last_WriteHeader calls).
    + unfold srw_WriteHeader. unfold_M. simpl.
      destruct (IH {| statusCode := code; responseBytes := responseBytes w0 |}
                   (h ++ [WriteHeader code])) as (w & h' & Hrun & Hcode).
      exists w, h'. rewrite Hrun. split; [reflexivity|].
      rewrite Hcode. simpl. by destruct (last_WriteHeader calls).
Qed.

(** C5, as amended.  After any sequence of operations on a fresh
    [StatusResponseWriter], [Code()] is 200 when [WriteHeader] was never
    called or was last called with 0, and the argument of the last
    [WriteHeader] otherwise. *)
Theorem Code_after_calls (env : Env) (calls : list srw_call) (h : list event) :
  exists w h',
    srw_run env NewStatusResponseWriter calls h = (Done w, h') /\
    srw_Code w =
      match last_WriteHeader calls with
      | None => 200
      | Some code => if decide (code = 0) then 200 else code
      end.
Proof.
  destruct (srw_run_statusCode env calls NewStatusResponseWriter h)
    as (w & h' & Hrun & Hcode).
  exists w, h'. split; [exact Hrun|].
  unfold srw_Code. rewrite Hcode.
  destruct (last_WriteHeader calls) as [code|]; simpl; reflexivity.
Qed.

(** C5, as stated, fails: after [WriteHeader(0)] the last value passed is 0
    and [Code()] is 200. *)
Lemma Code_after_WriteHeader_zero :
  ~ (forall (env : Env) (calls : list srw_call) (h : list event) w h',
       srw_run env NewStatusResponseWriter calls h = (Done w, h') ->
       srw_Code w =
         match last_WriteHeader calls with
         | None => 200
         | Some code => code
         end).
Proof.
  intros Hclaim.
  specialize (Hclaim Sample.quiet [CallWriteHeader 0] []
                {| statusCode := 0; responseBytes := 0 |} [WriteHeader 0] eq_refl).
  vm_compute in Hclaim. discriminate Hclaim.
Qed.

(** ** CORS *)

(** C7.  On a request carrying an [Origin] header, [SetCORS] answers an
    [OPTIONS] request by setting the three CORS headers (the allowed origin
    being the request's) and writing status 204, the same for every wrapped
    handler, which is therefore not invoked; on any other method it sets the
    allowed origin to the request's and then runs the wrapped handler. *)
Theorem SetCORS_behaviour (next : Handler) (r : Request) (h : list event) :
  Header_Get (Header r) "Origin" <> "" ->
  (Method r = "OPTIONS" ->
     SetCORS next r h =
       (Done tt,
        h ++ [HeaderSet "Access-Control-Allow-Origin" (Header_Get (Header r) "Origin");
              HeaderSet "Access-Control-Allow-Methods" cors_methods;
              HeaderSet "Access-Control-Allow-Headers" cors_headers;
              WriteHeader 204])) /\
  (Method r <> "OPTIONS" ->
     SetCORS next r h =
       next r (h ++ [HeaderSet "Access-Control-Allow-Origin"
                       (Header_Get (Header r) "Origin")])).
Proof.
  intros Horigin. unfold SetCORS, http.MethodOptions, http.StatusNoContent.
  split; intros Hm.
  - destruct (decide (Header_Get (Header r) "Origin" <> "")); [|done].
    destruct (decide (Method r = "OPTIONS")); [|done].
    unfold_M. simpl. by rewrite <- !app_assoc.
  - destruct (decide (Header_Get (Header r) "Origin" <> "")); [|done].
    destruct (decide (Method r = "OPTIONS")); [done|].
    unfold_M. reflexivity.
Qed.

Lemma SetCORS_behaviour_witness :
  SetCORS Cases.hello Cases.preflight [] =
    (Done tt,
     [HeaderSet "Access-Control-Allow-Origin" "https://app.example";
      HeaderSet "Access-Control-Allow-Methods" cors_methods;
      HeaderSet "Access-Control-Allow-Headers" cors_headers;
      WriteHeader 204]) /\
  SetCORS Cases.hello Cases.fetch [] =
    (Done tt,
     [HeaderSet "Access-Control-Allow-Origin" "https://app.example";
      WriteHeader 200; Write "hello"]).
Proof.
  split.
  - apply (SetCORS_behaviour Cases.hello Cases.preflight []).
    + vm_compute. discriminate.
    + reflexivity.
  - etransitivity.
    + apply (SetCORS_behaviour Cases.hello Cases.fetch []).
      * vm_compute. discriminate.
      * vm_compute. discriminate.
    + reflexivity.
Defined.

(** ** Decoding *)

(** C6.  Under the configuration [NewAPI()] builds from no options,
    [DecodeJSON] turns a failure of the JSON decoder into an application
    error of code [EInvalid] whose message is
    [failed to unmarshal json: ] followed by the decoder's error text, and
    returns the error of a failing [OK()] as it is. *)
Theorem DecodeJSON_default {Payload V : Type} (L : Library Payload) (E : ErrorCodes)
    (json_NewDecoder : string -> V -> V * option error)
    (r : string) (oker : option (V -> option error)) (v : V) :
  (forall v' err,
     json_NewDecoder r v = (v', Some err) ->
     DecodeJSON json_NewDecoder (Some (NewAPI L E [])) r oker v =
       (v', Some (platformError (EInvalid E)
                    ("failed to unmarshal " +:+ "json" +:+ ": " +:+ error_Error L err)
                    None))) /\
  (forall v' OK err,
     json_NewDecoder r v = (v', None) ->
     oker = Some OK ->
     OK v' = Some err ->
     DecodeJSON json_NewDecoder (Some (NewAPI L E [])) r oker v = (v', Some err)).
Proof.
  split.
  - intros v' err Hdec. unfold DecodeJSON, decode. rewrite Hdec. reflexivity.
  - intros v' OK err Hdec -> Hok. unfold DecodeJSON, decode. rewrite Hdec.
    simpl. by rewrite Hok.
Qed.

Lemma DecodeJSON_default_witness :
  DecodeJSON Cases.NewDecoder (Some (NewAPI Sample.lib Sample.codes [])) ""
    (Some Cases.OK) "" =
    ("", Some (platformError "invalid" "failed to unmarshal json: EOF" None)) /\
  DecodeJSON Cases.NewDecoder (Some (NewAPI Sample.lib Sample.codes [])) "{}"
    (Some Cases.OK) "" =
    ("{}", Some (errorString "name is required")).
Proof.
  destruct (DecodeJSON_default Sample.lib Sample.codes Cases.NewDecoder ""
              (Some Cases.OK) "") as [Hbad _].
  destruct (DecodeJSON_default Sample.lib Sample.codes Cases.NewDecoder "{}"
              (Some Cases.OK) "") as [_ Hok].
  split.
  - apply (Hbad "" (errorString "EOF")). reflexivity.
  - apply (Hok "{}" Cases.OK (errorString "name is required"));
      reflexivity.
Defined.

(** ** Responding *)

Lemma body_writes_app (h t : list event) :
  body_writes (h ++ t) = body_writes h ++ body_writes t.
Proof.
  induction h as [|e h IH]; simpl; [reflexivity|].
  destruct e; simpl; by rewrite ?IH.
Qed.

(** C9.  [Respond] with status 204 writes that status and returns: the
    header map (its [Content-Type] and [Content-Encoding] entries among the
    others) is what it was before the call and no body byte is written,
    whatever the configuration, gzip included, the value and the fuel. *)
Theorem Respond_no_content {Payload : Type} (L : Library Payload)
    (env : Env) (fuel : nat) (a : option (API Payload)) (r : Request)
    (v : value Payload) (h : list event) :
  exists h',
    Respond L env fuel a r 204 v h = (Done tt, h') /\
    added h h' = [WriteHeader 204] /\
    headers_after h' = headers_after h /\
    headers_after h' !! "Content-Type" = headers_after h !! "Content-Type" /\
    headers_after h' !! "Content-Encoding" = headers_after h !! "Content-Encoding" /\
    body_writes h' = body_writes h.
Proof.
  exists (h ++ [WriteHeader 204]).
  assert (Hhdr : headers_after (h ++ [WriteHeader 204]) = headers_after h).
  { unfold headers_after. by rewrite foldl_app. }
  split; [reflexivity|]. split.
  - unfold added. by rewrite drop_app_length.
  - rewrite Hhdr. repeat split; try reflexivity.
    rewrite body_writes_app. simpl. by rewrite app_nil_r.
Qed.

(** ** Error responses *)

Lemma sink_view_app (h t : list event) :
  sink_view (h ++ t) = sink_view h ++ sink_view t.
Proof.
  induction h as [|e h IH]; simpl; [reflexivity|].
  destruct (on_sink e); simpl; by rewrite IH.
Qed.

Lemma WriteErrorResponse_events {Payload : Type} (L : Library Payload)
    (E : ErrorCodes) (env : Env) (ctx : Context) (code msg : string)
    (h : list event) :
  WriteErrorResponse L E env ctx code msg h =
    (Done tt, h ++ error_response L E ctx code msg).
Proof.
  unfold WriteErrorResponse, w_Write, error_response, envelope_bytes.
  unfold_M. simpl. by rewrite <- !app_assoc.
Qed.







(** ** [Respond], [Write] and [Err] *)

Section Responding.
Context {Payload : Type}.
Variable L : Library Payload.
Variable env : Env.

Lemma preamble_commits_nothing (a : option (API Payload)) (h : list event) :
  Forall (fun e => commits e = false) (respond_preamble a h).
Proof.
  unfold respond_preamble. destruct (uses_gzip a); simpl;
    repeat constructor.
Qed.

(** [Respond] past the 204 test: the preamble, then, under the deferred close
    of the [noopCloser], [Err] on a marshal failure and [write] otherwise. *)
Lemma Respond_with_steps
    (Err_ : option (API Payload) -> Request -> option error -> M unit)
    (a : option (API Payload)) (r : Request) (status : Z) (v : value Payload)
    (h : list event) :
  status <> 204 ->
  Respond_with L env Err_ a r status v h =
    defer_ (wc_Close env noopCloser)
      (match marshal_for L a v with
       | inr err => Err_ a r (Some err)
       | inl b => write env a (selected_writer a h) status b
       end)
      (h ++ respond_preamble a h).
Proof.
  intros Hs. unfold Respond_with, http.StatusNoContent.
  destruct (decide (status = 204)); [done|].
  unfold respond_preamble, selected_writer, marshal_for, select_writer,
    gzip_NewWriter.
  destruct a as [api|]; simpl.
  - destruct (encodeGZIP api); unfold_M; simpl.
    + rewrite length_app. simpl. rewrite Nat.add_1_r.
      rewrite <- !app_assoc. simpl. reflexivity.
    + reflexivity.
  - unfold_M. simpl. reflexivity.
Qed.
End Responding.

Section Closing.
Context {Payload : Type}.
Variable L : Library Payload.
Variable env : Env.

(** With a logger configured [write] returns, leaving [write_trace]. *)
Lemma write_with_logger (api : API Payload) (lg : Logger) (wc : WriteCloser)
    (status : Z) (b : string) (h : list event) :
  logger api = Some lg ->
  write env (Some api) wc status b h = (Done tt, write_trace env lg wc status b h).
Proof.
  intros Hlg. unfold write, write_trace, api_log_write, log_call. rewrite Hlg.
  destruct wc as [|id]; simpl; unfold w_Write; unfold_M; simpl.
  - destruct (sink_Write env (h ++ [WriteHeader status]) b) as [n [werr|]];
      simpl; rewrite ?app_nil_r; reflexivity.
  - destruct (gzip_Write env (h ++ [WriteHeader status]) id b) as [n [werr|]];
      simpl; rewrite ?app_nil_r.
    + destruct (gzip_Close env _ id); simpl; rewrite ?app_nil_r; reflexivity.
    + destruct (gzip_Close env _ id); simpl; rewrite ?app_nil_r; reflexivity.
Qed.



End Closing.

Section Nesting.
Context {Payload : Type}.
Variable L : Library Payload.
Variable env : Env.





End Nesting.

Section Ordering.
Context {Payload : Type}.
Variable L : Library Payload.
Variable env : Env.

(** [write] starts with the status and the bytes it was given. *)
Lemma write_begins (a : option (API Payload)) (wc : WriteCloser) (status : Z)
    (b : string) (h : list event) :
  exists o t,
    write env a wc status b h =
      (o, h ++ WriteHeader status :: write_event wc b :: t).
Proof.
  unfold write, api_log_write, log_call.
  destruct wc as [|id]; simpl; unfold w_Write; unfold_M; simpl.
  - destruct (sink_Write env (h ++ [WriteHeader status]) b) as [k [werr|]]; simpl.
    + destruct a as [api|]; [destruct (logger api) as [lg|]|]; simpl;
        rewrite <- ?app_assoc; simpl; do 2 eexists; reflexivity.
    + rewrite <- ?app_assoc; simpl; do 2 eexists; reflexivity.
  - destruct (gzip_Write env (h ++ [WriteHeader status]) id b) as [k [werr|]]; simpl.
    + destruct a as [api|]; [destruct (logger api) as [lg|]|]; simpl.
      * destruct (gzip_Close env _ id); simpl;
          rewrite <- ?app_assoc; simpl; do 2 eexists; reflexivity.
      * rewrite <- ?app_assoc; simpl; do 2 eexists; reflexivity.
      * rewrite <- ?app_assoc; simpl; do 2 eexists; reflexivity.
    + destruct (gzip_Close env _ id); simpl.
      * destruct a as [api|]; [destruct (logger api) as [lg|]|]; simpl;
          rewrite <- ?app_assoc; simpl; do 2 eexists; reflexivity.
      * rewrite <- ?app_assoc; simpl; do 2 eexists; reflexivity.
Qed.
End Ordering.

(** C4.  A call of [Respond] with a status other than 204 first makes the
    calls of its preamble, none of which writes a status or a body byte, and
    only then looks at the outcome of marshalling the value.  When
    marshalling fails, all it does further is to call [Err] with the marshal
    error (and, when [Err] is over, to run the deferred close of the
    [noopCloser]); when it succeeds, the next calls are the status and the
    write of the complete marshalled bytes. *)
Theorem Respond_marshals_first {Payload : Type} (L : Library Payload) (env : Env)
    (fuel : nat) (a : option (API Payload)) (r : Request) (status : Z)
    (v : value Payload) (h : list event) :
  status <> 204 ->
  Forall (fun e => commits e = false) (respond_preamble a h) /\
  (forall err,
     marshal_for L a v = inr err ->
     Respond L env fuel a r status v h =
       defer_ (wc_Close env noopCloser)
         (API_Err L env fuel a r (Some err))
         (h ++ respond_preamble a h)) /\
  (forall b,
     marshal_for L a v = inl b ->
     exists o t,
       Respond L env fuel a r status v h =
         (o, (h ++ respond_preamble a h)
               ++ WriteHeader status :: write_event (selected_writer a h) b :: t)).
Proof.
  intros Hs. split; [apply preamble_commits_nothing|]. split.
  - intros err Hm. unfold Respond.
    rewrite (Respond_with_steps L env _ a r status v h Hs). by rewrite Hm.
  - intros b Hm. unfold Respond.
    rewrite (Respond_with_steps L env _ a r status v h Hs). rewrite Hm.
    destruct (write_begins env a (selected_writer a h) status b
                (h ++ respond_preamble a h)) as (o & t & Hw).
    unfold defer_. rewrite Hw.
    destruct o as [x|s|]; simpl; unfold_M; simpl.
    + exists (Done x), (t ++ [NoopClose]).
      by rewrite <- !app_assoc.
    + exists (Panic s), (t ++ [NoopClose]).
      by rewrite <- !app_assoc.
    + exists OutOfFuel, t. reflexivity.
Qed.

Lemma Respond_marshals_first_witness :
  Respond Sample.lib Sample.quiet 1 (Some (NewAPI Sample.lib Sample.codes []))
    Cases.fetch 200 (VPayload "") [] =
  (Done tt,
   [ HeaderSet "Content-Type" "application/json; charset=utf-8";
     HeaderSet "X-Platform-Error-Code" "internal error";
     HeaderSet "Content-Type" "application/json; charset=utf-8";
     WriteHeader 500;
     Write (Sample.encode_fields "internal error" "json: unsupported type");
     NoopClose;
     NoopClose;
     NoopClose ]).
Proof.
  etransitivity.
  - apply (Respond_marshals_first Sample.lib Sample.quiet 1
             (Some (NewAPI Sample.lib Sample.codes [])) Cases.fetch 200
             (VPayload "") []).
    + lia.
    + reflexivity.
  - vm_compute. reflexivity.
Defined.

(** No status [ErrorCodeToStatusCode] answers is 204. *)
Lemma ErrorCodeToStatusCode_not_204 (E : ErrorCodes) (ctx : Context) (code : string) :
  ErrorCodeToStatusCode E ctx code <> 204.
Proof.
  unfold ErrorCodeToStatusCode.
  destruct (ctx_Err ctx) as [[]|]; [done|done|].
  destruct (apiErrorToStatusCode E !! code) as [status|] eqn:Hl; [|done].
  apply elem_of_list_to_map_2 in Hl. unfold apiErrorToStatusCode_entries in Hl.
  repeat (apply elem_of_cons in Hl as [Hl|Hl]; [simplify_eq; done|]).
  by apply elem_of_nil in Hl.
Qed.

(** ** Which closer is closed, and how often *)

Lemma count_app (p : event -> bool) (s t : list event) :
  count p (s ++ t) = (count p s + count p t)%nat.
Proof.
  induction s as [|e s IH]; simpl; [reflexivity|].
  destruct (p e); simpl; by rewrite IH.
Qed.

Lemma count_failure_log (p : event -> bool) (lg : Logger) (msg : string)
    (err : option error) :
  (forall level fields m e, p (Log level fields m e) = false) ->
  count p (write_failure_log lg msg err) = O.
Proof.
  intros Hp. destruct err as [err|]; simpl; [|reflexivity]. by rewrite Hp.
Qed.


Section GzipClosing.
Context {Payload : Type}.
Variable L : Library Payload.
Variable env : Env.


(** Through the [noopCloser] it closes that once, and no gzip writer. *)
Lemma write_trace_noop (lg : Logger) (status : Z) (b : string) (h : list event)
    (id : nat) :
  exists t,
    write_trace env lg noopCloser status b h = h ++ t /\
    count (is_GzipClose id) t = O /\
    count is_NoopClose t = 1%nat.
Proof.
  unfold write_trace. simpl.
  eexists. split.
  - rewrite <- !app_assoc. reflexivity.
  - simpl. rewrite !count_app. simpl.
    rewrite !count_failure_log by reflexivity. split; reflexivity.
Qed.

(** [Respond] on the success path, with a logger configured. *)
Lemma Respond_success_trace (fuel : nat) (api : API Payload) (lg : Logger)
    (r : Request) (status : Z) (v : value Payload) (b : string) (h : list event) :
  status <> 204 ->
  logger api = Some lg ->
  marshal_for L (Some api) v = inl b ->
  Respond L env fuel (Some api) r status v h =
    (Done tt,
     write_trace env lg (selected_writer (Some api) h) status b
       (h ++ respond_preamble (Some api) h) ++ [NoopClose]).
Proof.
  intros Hs Hlg Hm. unfold Respond.
  rewrite (Respond_with_steps L env _ (Some api) r status v h Hs), Hm.
  unfold defer_. rewrite (write_with_logger env api lg _ status b _ Hlg).
  unfold_M. reflexivity.
Qed.

(** [Write] with a logger configured. *)
Lemma API_Write_trace (api : API Payload) (lg : Logger) (status : Z) (b : string)
    (h : list event) :
  status <> 204 ->
  logger api = Some lg ->
  API_Write env (Some api) status b h =
    (Done tt,
     write_trace env lg (selected_writer (Some api) h) status b
       (h ++ write_preamble (Some api) h) ++ [NoopClose]).
Proof.
  intros Hs Hlg. unfold API_Write, http.StatusNoContent.
  destruct (decide (status = 204)); [done|].
  unfold selected_writer, write_preamble, select_writer, gzip_NewWriter. simpl.
  destruct (encodeGZIP api); unfold_M; simpl.
  - rewrite length_app. simpl. rewrite Nat.add_1_r.
    rewrite (write_with_logger env api lg _ status b _ Hlg).
    rewrite <- !app_assoc. reflexivity.
  - rewrite (write_with_logger env api lg _ status b _ Hlg).
    rewrite app_nil_r. reflexivity.
Qed.
End GzipClosing.

(** [Write] past the 204 test: its preamble, then [write] under the deferred
    close of the [noopCloser]. *)
Lemma API_Write_steps {Payload : Type} (env : Env) (a : option (API Payload))
    (status : Z) (b : string) (h : list event) :
  status <> 204 ->
  API_Write env a status b h =
    defer_ (wc_Close env noopCloser)
      (write env a (selected_writer a h) status b)
      (h ++ write_preamble a h).
Proof.
  intros Hs. unfold API_Write, http.StatusNoContent.
  destruct (decide (status = 204)); [done|].
  unfold selected_writer, write_preamble, select_writer, gzip_NewWriter.
  destruct a as [api|]; simpl.
  - destruct (encodeGZIP api); unfold_M; simpl.
    + rewrite length_app. simpl. rewrite Nat.add_1_r.
      rewrite <- !app_assoc. reflexivity.
    + rewrite app_nil_r. reflexivity.
  - unfold_M. simpl. rewrite app_nil_r. reflexivity.
Qed.







(** The marshal failure path with gzip enabled, run: the writer created
    first (1) is never written to nor closed; the error response goes through
    the writer the nested [Respond] creates (5). *)
Example Respond_marshal_failure_gzip_run :
  Respond Sample.lib Sample.quiet 1 (Some Cases.zipped) Cases.fetch 200
    (VPayload "") [] =
  (Done tt,
   [ HeaderSet "Content-Encoding" "gzip";
     GzipNewWriter 1;
     HeaderSet "Content-Type" "application/json; charset=utf-8";
     HeaderSet "X-Platform-Error-Code" "internal error";
     HeaderSet "Content-Encoding" "gzip";
     GzipNewWriter 5;
     HeaderSet "Content-Type" "application/json; charset=utf-8";
     WriteHeader 500;
     GzipWrite 5 (Sample.encode_fields "internal error" "json: unsupported type");
     GzipClose 5;
     NoopClose;
     NoopClose ]).
Proof. vm_compute. reflexivity. Qed.

(** ** The marshal failure path, to its end *)

(** Under a configuration with a logger and the error formatter [NewAPI]
    installs, and an encoder that accepts every [ErrBody], a marshal failure
    in [Respond] ends, with one unit of fuel or more, in the error response:
    the error-code header, then the nested [Respond] with the status of the
    error's code. *)
Lemma Respond_failure_reroutes {Payload : Type} (L : Library Payload)
    (E : ErrorCodes) (env : Env) (fuel : nat) (api : API Payload) (lg : Logger)
    (r : Request) (status : Z) (v : value Payload) (err : error)
    (h : list event) :
  status <> 204 ->
  logger api = Some lg ->
  errFn api = Some (default_errFn L E) ->
  marshal_for L (Some api) v = inr err ->
  (forall eb, exists b, marshal_for L (Some api) (VErrBody eb) = inl b) ->
  exists b,
    marshal_for L (Some api)
      (default_errFn L E (req_Context r) err).1.1 = inl b /\
    let h1 := (h ++ respond_preamble (Some api) h)
                ++ [HeaderSet PlatformErrorCodeHeader (errors_ErrorCode L err)] in
    Respond L env (S fuel) (Some api) r status v h =
      (Done tt,
       (write_trace env lg (selected_writer (Some api) h1)
          (ErrorCodeToStatusCode E (req_Context r) (errors_ErrorCode L err)) b
          (h1 ++ respond_preamble (Some api) h1) ++ [NoopClose]) ++ [NoopClose]).
Proof.
  intros Hs Hlg Hfn Hm Htotal.
  destruct (Htotal
              {| eb_Code := errors_ErrorCode L err;
                 eb_Msg := if decide (error_Error L err = "")
                           then "an internal error has occurred"
                           else error_Error L err |}) as [b Hb].
  exists b. split; [exact Hb|]. simpl.
  unfold Respond.
  rewrite (Respond_with_steps L env _ (Some api) r status v h Hs), Hm.
  unfold defer_. simpl. rewrite Hfn. unfold default_errFn. simpl.
  unfold_M. simpl.
  pose proof (Respond_success_trace L env fuel api lg r
                (ErrorCodeToStatusCode E (req_Context r) (errors_ErrorCode L err))
                _ b
                ((h ++ respond_preamble (Some api) h)
                   ++ [HeaderSet PlatformErrorCodeHeader (errors_ErrorCode L err)])
                (ErrorCodeToStatusCode_not_204 E _ _) Hlg Hb) as Hnested.
  unfold Respond in Hnested. rewrite Hnested. reflexivity.
Qed.

(** ** Closing the [noopCloser] twice *)

(** Without gzip, on the success path with a logger configured, the
    [noopCloser] is closed twice, by [write] and by the deferred call; the
    call returns and what reaches the client is the status and the bytes. *)
Lemma Respond_plain_double_close {Payload : Type} (L : Library Payload)
    (env : Env) (fuel : nat) (api : API Payload) (lg : Logger) (r : Request)
    (status : Z) (v : value Payload) (b : string) (h : list event) :
  status <> 204 ->
  encodeGZIP api = false ->
  logger api = Some lg ->
  marshal_for L (Some api) v = inl b ->
  exists t,
    Respond L env fuel (Some api) r status v h = (Done tt, h ++ t) /\
    count is_NoopClose t = 2%nat /\
    sink_view t =
      [HeaderSet "Content-Type" "application/json; charset=utf-8";
       WriteHeader status; Write b].
Proof.
  intros Hs Hgz Hlg Hm.
  rewrite (Respond_success_trace L env fuel api lg r status v b h Hs Hlg Hm).
  unfold selected_writer, respond_preamble, write_trace. simpl. rewrite Hgz. simpl.
  eexists. split; [by rewrite <- !app_assoc|].
  split.
  - simpl. rewrite !count_app. simpl.
    rewrite !count_failure_log by reflexivity. reflexivity.
  - simpl. rewrite !sink_view_app. simpl.
    destruct (sink_Write env _ b) as [k [werr|]]; reflexivity.
Qed.

(** * Further properties *)

(** ** The taxonomy, both ways *)

Lemma taxonomy_lookup_entry (E : ErrorCodes) (code : string) (status : Z) :
  apiErrorToStatusCode E !! code = Some status ->
  (code, status) ∈ apiErrorToStatusCode_entries E.
Proof. intros Hl. by apply elem_of_list_to_map_2 in Hl. Qed.

(** What the reverse table holds under a status comes from an entry of the
    literal with that status. *)
Lemma init_from_origin (E : ErrorCodes) (visit : list (string * Z))
    (status : Z) (code : string) :
  range_order E visit ->
  init_from visit !! status = Some code ->
  (code, status) ∈ apiErrorToStatusCode_entries E.
Proof.
  intros Hv Hl.
  destruct (invert_lookup_origin visit ∅ status code Hl) as [Hin | Hempty].
  - unfold range_order in Hv. rewrite Hv in Hin.
    apply elem_of_map_to_list in Hin. by apply taxonomy_lookup_entry.
  - by rewrite lookup_empty in Hempty.
Qed.

(** X1.  A status that no entry of the taxonomy carries is mapped to the
    internal code, in every order in which [init] may have visited the
    table. *)
Theorem StatusCodeToErrorCode_unlisted (E : ErrorCodes) (visit : list (string * Z))
    (status : Z) :
  range_order E visit ->
  status ∉ (apiErrorToStatusCode_entries E).*2 ->
  StatusCodeToErrorCode E (init_from visit) status = EInternal E.
Proof.
  intros Hv Hn. unfold StatusCodeToErrorCode.
  destruct (init_from visit !! status) as [code|] eqn:Hl; [|reflexivity].
  exfalso. apply Hn.
  apply (init_from_origin E visit status code Hv) in Hl.
  apply list_elem_of_fmap. by exists (code, status).
Qed.

Lemma StatusCodeToErrorCode_unlisted_witness :
  StatusCodeToErrorCode Sample.codes Fixture.table 418 = "internal error" /\
  StatusCodeToErrorCode Sample.codes Fixture.table 415 = "internal error".
Proof.
  split.
  - apply (StatusCodeToErrorCode_unlisted Sample.codes
             (map_to_list (apiErrorToStatusCode Sample.codes)) 418).
    + unfold range_order. reflexivity.
    + apply (bool_decide_unpack _). vm_compute. exact I.
  - apply (StatusCodeToErrorCode_unlisted Sample.codes
             (map_to_list (apiErrorToStatusCode Sample.codes)) 415).
    + unfold range_order. reflexivity.
    + apply (bool_decide_unpack _). vm_compute. exact I.
Defined.

Lemma reverse_answer_in_taxonomy (E : ErrorCodes)
    (visit : list (string * Z)) (status : Z) :
  range_order E visit ->
  StatusCodeToErrorCode E (init_from visit) status ∈ taxonomy E.
Proof.
  intros Hv. unfold StatusCodeToErrorCode, taxonomy.
  destruct (init_from visit !! status) as [code|] eqn:Hl.
  - apply (init_from_origin E visit status code Hv) in Hl.
    apply list_elem_of_fmap. by exists (code, status).
  - unfold apiErrorToStatusCode_entries. simpl. by left.
Qed.

(** X2.  Whatever the status, [StatusCodeToErrorCode] answers one of the
    codes of the taxonomy. *)
Theorem StatusCodeToErrorCode_in_taxonomy (E : ErrorCodes)
    (visit : list (string * Z)) (status : Z) :
  range_order E visit ->
  StatusCodeToErrorCode E (init_from visit) status ∈ taxonomy E.
Proof. apply reverse_answer_in_taxonomy. Qed.

Lemma StatusCodeToErrorCode_in_taxonomy_witness :
  StatusCodeToErrorCode Sample.codes Fixture.table 404 ∈ taxonomy Sample.codes.
Proof.
  apply (StatusCodeToErrorCode_in_taxonomy Sample.codes
           (map_to_list (apiErrorToStatusCode Sample.codes)) 404).
  unfold range_order. reflexivity.
Defined.

(** Two entries of the literal with the same status, other than 400 and 422,
    have the same code. *)
Lemma entries_status_unique (E : ErrorCodes) (code code' : string) (status : Z) :
  status <> 400 -> status <> 422 ->
  (code, status) ∈ apiErrorToStatusCode_entries E ->
  (code', status) ∈ apiErrorToStatusCode_entries E ->
  code' = code.
Proof.
  intros H400 H422 Hin Hin'. unfold apiErrorToStatusCode_entries in Hin.
  repeat (apply elem_of_cons in Hin as [Hin|Hin];
          [simplify_eq;
           first [ done
                 | unfold apiErrorToStatusCode_entries in Hin';
                   repeat (apply elem_of_cons in Hin' as [Hin'|Hin'];
                           [simplify_eq; done|]);
                   by apply elem_of_nil in Hin' ]|]).
  by apply elem_of_nil in Hin.
Qed.

(** X3.  For a code of the taxonomy whose status is neither 400 nor 422,
    mapping the code to its status and the status back gives the code again,
    in every visiting order. *)
Theorem code_roundtrip_unshared (E : ErrorCodes) (visit : list (string * Z))
    (ctx : Context) (code : string) :
  distinct_codes E ->
  range_order E visit ->
  ctx_Err ctx = None ->
  code ∈ taxonomy E ->
  ErrorCodeToStatusCode E ctx code <> 400 ->
  ErrorCodeToStatusCode E ctx code <> 422 ->
  StatusCodeToErrorCode E (init_from visit) (ErrorCodeToStatusCode E ctx code) = code.
Proof.
  intros Hd Hv Hctx Hin.
  destruct (lookup_taxonomy_known E code Hin) as [status Hs].
  unfold ErrorCodeToStatusCode. rewrite Hctx, Hs. intros H400 H422.
  destruct (init_from_preimage E visit code status Hv Hs) as (code' & Hr & Hf).
  unfold StatusCodeToErrorCode. rewrite Hr.
  apply (entries_status_unique E code code' status H400 H422);
    by apply taxonomy_lookup_entry.
Qed.

Lemma code_roundtrip_unshared_witness :
  StatusCodeToErrorCode Sample.codes Fixture.table
    (ErrorCodeToStatusCode Sample.codes Background "too many requests")
  = "too many requests".
Proof.
  apply (code_roundtrip_unshared Sample.codes
           (map_to_list (apiErrorToStatusCode Sample.codes)) Background
           "too many requests").
  - exact Sample_codes_distinct.
  - unfold range_order. reflexivity.
  - reflexivity.
  - apply (bool_decide_unpack _). vm_compute. exact I.
  - vm_compute. discriminate.
  - vm_compute. discriminate.
Defined.

Lemma error_status_range (E : ErrorCodes) (ctx : Context) (code : string) :
  400 <= ErrorCodeToStatusCode E ctx code < 600.
Proof.
  unfold ErrorCodeToStatusCode.
  destruct (ctx_Err ctx) as [[]|]; [unfold http.StatusRequestTimeout; lia..|].
  destruct (apiErrorToStatusCode E !! code) as [status|] eqn:Hl;
    [|unfold http.StatusInternalServerError; lia].
  apply taxonomy_lookup_entry in Hl. unfold apiErrorToStatusCode_entries in Hl.
  repeat (apply elem_of_cons in Hl as [Hl|Hl]; [simplify_eq; vm_compute; by split|]).
  by apply elem_of_nil in Hl.
Qed.

(** X4.  Every status [ErrorCodeToStatusCode] answers is a client or server
    error status: at least 400 and below 600, for every code and context. *)
Theorem ErrorCodeToStatusCode_is_error_status (E : ErrorCodes) (ctx : Context)
    (code : string) :
  400 <= ErrorCodeToStatusCode E ctx code < 600.
Proof. apply error_status_range. Qed.

(** ** The first line of a body *)

Lemma substring_all (s : string) : String.substring 0 (String.length s) s = s.
Proof. induction s as [|c s IH]; simpl; [reflexivity|]. by rewrite IH. Qed.

Lemma substring_app_head (a b : string) :
  String.substring 0 (String.length a) (a +:+ b) = a.
Proof.
  induction a as [|c a IH]; simpl.
  - by destruct b.
  - by rewrite IH.
Qed.

Lemma substring_app_tail (a b : string) :
  String.substring (String.length a) (String.length b) (a +:+ b) = b.
Proof.
  induction a as [|c a IH]; simpl; [apply substring_all|exact IH].
Qed.

Lemma length_app_string (a b : string) :
  String.length (a +:+ b) = (String.length a + String.length b)%nat.
Proof. induction a as [|c a IH]; simpl; [reflexivity|]. by rewrite IH. Qed.

(** A line and its newline, trimmed, is the line. *)
Lemma TrimSuffix_newline_ended (line : string) :
  TrimSuffix (line +:+ String newline EmptyString) (String newline EmptyString) = line.
Proof.
  unfold TrimSuffix. rewrite length_app_string. simpl String.length.
  replace (String.length line + 1 - 1)%nat with (String.length line) by lia.
  assert (Hle : (1 <=? String.length line + 1)%nat = true)
    by (apply Nat.leb_le; lia).
  rewrite Hle.
  pose proof (substring_app_tail line (String newline EmptyString)) as Htail.
  change (String.length (String newline EmptyString)) with 1%nat in Htail.
  rewrite Htail, String.eqb_refl. simpl.
  apply substring_app_head.
Qed.

Lemma last_byte_not_newline (c : Ascii.ascii) (s : string) :
  newline_free (String c s) = true ->
  String.eqb (String.substring (String.length s) 1 (String c s))
    (String newline EmptyString) = false.
Proof.
  revert c. induction s as [|d s IH]; intros c Hfree.
  - simpl in *. destruct (Ascii.eqb c newline); [discriminate Hfree|reflexivity].
  - change (String.substring (String.length (String d s)) 1 (String c (String d s)))
      with (String.substring (String.length s) 1 (String d s)).
    apply IH. simpl in Hfree. simpl.
    by destruct (Ascii.eqb c newline); [discriminate Hfree|].
Qed.

(** A text without newline is left as it is. *)
Lemma TrimSuffix_newline_free (line : string) :
  newline_free line = true ->
  TrimSuffix line (String newline EmptyString) = line.
Proof.
  intros Hfree. unfold TrimSuffix. destruct line as [|c s]; [reflexivity|].
  simpl String.length.
  replace (S (String.length s) - 1)%nat with (String.length s) by lia.
  rewrite (last_byte_not_newline c s Hfree).
  by rewrite andb_false_r.
Qed.

Lemma ReadString_newline_line (line rest : string) :
  newline_free line = true ->
  ReadString_newline (line +:+ String newline rest)
  = line +:+ String newline EmptyString.
Proof.
  induction line as [|c line IH]; intros Hfree; simpl.
  - reflexivity.
  - simpl in Hfree. destruct (Ascii.eqb c newline); [discriminate Hfree|].
    by rewrite IH.
Qed.

Lemma ReadString_newline_free (line : string) :
  newline_free line = true -> ReadString_newline line = line.
Proof.
  induction line as [|c line IH]; intros Hfree; simpl; [reflexivity|].
  simpl in Hfree. destruct (Ascii.eqb c newline); [discriminate Hfree|].
  by rewrite IH.
Qed.

(** Every buffer is a line without newline, alone or followed by a newline
    and the rest. *)
Lemma first_line_split (buf : string) :
  exists line,
    newline_free line = true /\
    (buf = line \/ exists rest, buf = line +:+ String newline rest).
Proof.
  induction buf as [|c buf (line & Hfree & Hshape)].
  - exists EmptyString. split; [reflexivity|by left].
  - destruct (Ascii.eqb c newline) eqn:Hc.
    + apply Ascii.eqb_eq in Hc as ->.
      exists EmptyString. split; [reflexivity|]. right. by exists buf.
    + exists (String c line). split; [simpl; by rewrite Hc|].
      destruct Hshape as [-> | [rest ->]]; [by left|].
      right. by exists rest.
Qed.

(** X5.  [firstLineAsError] is an error whose text is the bytes before the
    first newline of the buffer, or the whole buffer when it has no newline;
    the text never holds a newline. *)
Theorem firstLineAsError_first_line (buf : string) :
  exists line,
    firstLineAsError buf = errors_New line /\
    newline_free line = true /\
    (buf = line \/ exists rest, buf = line +:+ String newline rest).
Proof.
  destruct (first_line_split buf) as (line & Hfree & Hshape).
  exists line. split; [|split; [exact Hfree|exact Hshape]].
  unfold firstLineAsError. f_equal.
  destruct Hshape as [-> | [rest ->]].
  - rewrite (ReadString_newline_free line Hfree).
    by apply TrimSuffix_newline_free.
  - rewrite (ReadString_newline_line line rest Hfree).
    apply TrimSuffix_newline_ended.
Qed.

(** ** [CheckError], case by case *)

Lemma quot_100_class (s : Z) :
  (Z.quot s 100 = 2 <-> 200 <= s <= 299) /\
  (Z.quot s 100 = 4 \/ Z.quot s 100 = 5 <-> 400 <= s <= 599).
Proof. split; split; intros H; Z.to_euclidean_division_equations; lia. Qed.

Section CheckErrorCases.
Context {Payload : Type}.
Variable L : Library Payload.
Variable E : ErrorCodes.
Variable table : gmap Z string.

Lemma CheckError_error_class (resp : Response) :
  400 <= StatusCode resp <= 599 ->
  CheckError L E table resp = Some (CheckError_parse L E table resp).
Proof.
  intros Hs. unfold CheckError.
  destruct (decide _) as [_|Hn]; [reflexivity|].
  exfalso. apply Hn. by apply quot_100_class.
Qed.
End CheckErrorCases.

(** X6.  [CheckError] answers nil exactly for the statuses 200 to 299.  For a
    status below 200, from 300 to 399, or from 600 on, it answers an
    application error of the internal code whose message is
    [unexpected status code: ] followed by the status number and the status
    text, without reading headers or body. *)
Theorem CheckError_by_class {Payload : Type} (L : Library Payload) (E : ErrorCodes)
    (table : gmap Z string) (resp : Response) :
  (CheckError L E table resp = None <-> 200 <= StatusCode resp <= 299) /\
  (StatusCode resp < 200 \/ 300 <= StatusCode resp <= 399 \/ 600 <= StatusCode resp ->
   CheckError L E table resp =
     Some (platformError (EInternal E)
             ("unexpected status code: " +:+ pretty (StatusCode resp)
                +:+ " " +:+ Status resp)
             None)).
Proof.
  destruct (quot_100_class (StatusCode resp)) as [H2 H45].
  unfold CheckError. split.
  - destruct (decide (_ \/ _)) as [Hc|Hc].
    + split; [discriminate|]. intros Hr. apply H45 in Hc. lia.
    + destruct (decide (Z.quot (StatusCode resp) 100 = 2)) as [Hq|Hq].
      * split; [intros _; by apply H2|reflexivity].
      * split; [discriminate|]. intros Hr. exfalso. apply Hq. by apply H2.
  - intros Hr.
    destruct (decide (_ \/ _)) as [Hc|Hc]; [apply H45 in Hc; lia|].
    destruct (decide (Z.quot (StatusCode resp) 100 = 2)) as [Hq|Hq];
      [apply H2 in Hq; lia|].
    reflexivity.
Qed.

(** X7.  For an error status other than 415, when reading the body fails
    [CheckError] answers the code of the status, the message
    [failed to read error response] and the read error as cause, whatever
    the content type and whatever was read; for status 415 it answers the
    code of the status and a message quoting the content type, whatever the
    body and whether or not it can be read. *)
Theorem CheckError_short_circuits {Payload : Type} (L : Library Payload)
    (E : ErrorCodes) (table : gmap Z string) (resp : Response) :
  (StatusCode resp = 415 ->
   CheckError L E table resp =
     Some (platformError (StatusCodeToErrorCode E table 415)
             ("invalid media type: "
                +:+ fmt_q L (Header_Get (resp_Header resp) "Content-Type"))
             None)) /\
  (forall err,
     400 <= StatusCode resp <= 599 ->
     StatusCode resp <> 415 ->
     Body_err resp = Some err ->
     CheckError L E table resp =
       Some (platformError (StatusCodeToErrorCode E table (StatusCode resp))
               "failed to read error response" (Some err))).
Proof.
  split.
  - intros Hs. rewrite CheckError_error_class by lia.
    unfold CheckError_parse. rewrite Hs.
    destruct (decide (415 = http.StatusUnsupportedMediaType)); [reflexivity|done].
  - intros err Hs Hn Herr. rewrite CheckError_error_class by exact Hs.
    unfold CheckError_parse. rewrite Herr.
    destruct (decide (StatusCode resp = http.StatusUnsupportedMediaType));
      [done|reflexivity].
Qed.

Lemma CheckError_short_circuits_witness :
  CheckError Sample.lib Sample.codes Fixture.table
    {| StatusCode := 502; Status := "502 Bad Gateway";
       resp_Header := {[ "Content-Type" := ["application/json"] ]};
       Body := "{"; Body_err := Some (errorString "unexpected EOF") |}
  = Some (platformError "bad gateway" "failed to read error response"
            (Some (errorString "unexpected EOF"))) /\
  CheckError Sample.lib Sample.codes Fixture.table
    {| StatusCode := 415; Status := "415 Unsupported Media Type";
       resp_Header := {[ "Content-Type" := ["text/csv"] ]};
       Body := ""; Body_err := Some (errorString "connection reset") |}
  = Some (platformError "internal error"
            ("invalid media type: " +:+ Sample.dq_wrapped "text/csv") None).
Proof.
  split.
  - etransitivity.
    + apply (proj2 (CheckError_short_circuits Sample.lib Sample.codes
                      Fixture.table _));
        [simpl; lia|simpl; lia|reflexivity].
    + vm_compute. reflexivity.
  - etransitivity.
    + apply (proj1 (CheckError_short_circuits Sample.lib Sample.codes
                      Fixture.table _)).
      reflexivity.
    + vm_compute. reflexivity.
Defined.

(** X8.  For an error status other than 415 with a readable body and a
    content type that is present and not of media type [application/json],
    [CheckError] never decodes the body: it answers the code of the status,
    an empty message, and as cause an error whose text is the first line of
    the body. *)
Theorem CheckError_text_body {Payload : Type} (L : Library Payload)
    (E : ErrorCodes) (table : gmap Z string) (resp : Response) :
  400 <= StatusCode resp <= 599 ->
  StatusCode resp <> 415 ->
  Body_err resp = None ->
  Header_Get (resp_Header resp) "Content-Type" <> "" ->
  mime_ParseMediaType L (Header_Get (resp_Header resp) "Content-Type")
    <> "application/json" ->
  CheckError L E table resp =
    Some (platformError (StatusCodeToErrorCode E table (StatusCode resp)) ""
            (Some (firstLineAsError (Body resp)))).
Proof.
  intros Hs Hn Hread Hct Hmt. rewrite CheckError_error_class by exact Hs.
  unfold CheckError_parse. rewrite Hread.
  destruct (decide (StatusCode resp = http.StatusUnsupportedMediaType)); [done|].
  destruct (decide (Header_Get (resp_Header resp) "Content-Type" = "")); [done|].
  destruct (decide (mime_ParseMediaType L
              (Header_Get (resp_Header resp) "Content-Type") = "application/json"));
    [done|].
  simpl. by destruct (decide _).
Qed.

Lemma CheckError_text_body_witness :
  CheckError Sample.lib Sample.codes Fixture.table
    {| StatusCode := 503; Status := "503 Service Unavailable";
       resp_Header := {[ "Content-Type" := ["text/html"] ]};
       Body := "upstream timeout" +:+ String newline "<html>"; Body_err := None |}
  = Some (platformError "unavailable" "" (Some (errorString "upstream timeout"))).
Proof.
  etransitivity.
  - apply (CheckError_text_body Sample.lib Sample.codes Fixture.table).
    + simpl. lia.
    + simpl. lia.
    + reflexivity.
    + vm_compute. discriminate.
    + vm_compute. discriminate.
  - vm_compute. reflexivity.
Defined.

(** X9.  For an error status other than 415 with a readable body whose
    content type is absent or of media type [application/json], when
    [json.Unmarshal] fails [CheckError] answers a message that quotes the
    decoder's error, the first line of the body as cause, and the code the
    decoder left in the error, or the code of the status if that is empty. *)
Theorem CheckError_json_fallback {Payload : Type} (L : Library Payload)
    (E : ErrorCodes) (table : gmap Z string) (resp : Response)
    (left_ : Error) (err : error) :
  400 <= StatusCode resp <= 599 ->
  StatusCode resp <> 415 ->
  Body_err resp = None ->
  mime_ParseMediaType L
    (if decide (Header_Get (resp_Header resp) "Content-Type" = "")
     then "application/json"
     else Header_Get (resp_Header resp) "Content-Type") = "application/json" ->
  json_Unmarshal L (Body resp)
    {| Code := StatusCodeToErrorCode E table (StatusCode resp);
       Msg := ""; Err := None |} = (left_, Some err) ->
  CheckError L E table resp =
    Some (platformError
            (if decide (Code left_ = "")
             then StatusCodeToErrorCode E table (StatusCode resp)
             else Code left_)
            ("attempted to unmarshal error as JSON but failed: "
               +:+ fmt_q L (error_Error L err))
            (Some (firstLineAsError (Body resp)))).
Proof.
  intros Hs Hn Hread Hmt Hdec. rewrite CheckError_error_class by exact Hs.
  unfold CheckError_parse. rewrite Hread.
  destruct (decide (StatusCode resp = http.StatusUnsupportedMediaType)); [done|].
  rewrite Hmt.
  destruct (decide ("application/json" = "application/json")); [|done].
  rewrite Hdec. simpl. by destruct (decide (Code left_ = "")).
Qed.

Lemma CheckError_json_fallback_witness :
  CheckError Sample.lib Sample.codes Fixture.table
    {| StatusCode := 500; Status := "500 Internal Server Error";
       resp_Header := ∅;
       Body := "upstream timeout" +:+ String newline ""; Body_err := None |}
  = Some (platformError "internal error"
            ("attempted to unmarshal error as JSON but failed: "
               +:+ Sample.dq_wrapped "invalid character looking for beginning of value")
            (Some (errorString "upstream timeout"))).
Proof.
  etransitivity.
  - apply (CheckError_json_fallback Sample.lib Sample.codes Fixture.table _
             {| Code := "internal error"; Msg := ""; Err := None |}
             (errorString "invalid character looking for beginning of value")).
    + simpl. lia.
    + simpl. lia.
    + reflexivity.
    + reflexivity.
    + vm_compute. reflexivity.
  - vm_compute. reflexivity.
Defined.

Lemma CheckError_by_class_witness :
  CheckError Sample.lib Sample.codes Fixture.table
    {| StatusCode := 302; Status := "302 Found"; resp_Header := ∅;
       Body := ""; Body_err := None |}
  = Some (platformError "internal error" "unexpected status code: 302 302 Found" None).
Proof.
  etransitivity.
  - apply (proj2 (CheckError_by_class Sample.lib Sample.codes Fixture.table _)).
    simpl. lia.
  - vm_compute. reflexivity.
Defined.

(** X10.  Whenever the codes of the taxonomy are all non-empty, an error
    [CheckError] answers is an application error with a non-empty code,
    whatever the response and whatever the libraries do. *)
Theorem CheckError_code_nonempty {Payload : Type} (L : Library Payload)
    (E : ErrorCodes) (visit : list (string * Z)) (resp : Response) (e : error) :
  range_order E visit ->
  Forall (fun code => code <> "") (taxonomy E) ->
  CheckError L E (init_from visit) resp = Some e ->
  exists perr, as_Error e = Some perr /\ Code perr <> "".
Proof.
  intros Hv Hne.
  assert (Hseed : forall status,
             StatusCodeToErrorCode E (init_from visit) status <> "").
  { intros status. pose proof (reverse_answer_in_taxonomy E visit status Hv) as Hin.
    rewrite Forall_forall in Hne. by apply Hne. }
  assert (Hint : EInternal E <> "").
  { rewrite Forall_forall in Hne. apply Hne. unfold taxonomy. simpl. by left. }
  unfold CheckError.
  destruct (decide (_ \/ _)) as [_|_].
  - intros [= <-]. unfold CheckError_parse.
    destruct (decide (StatusCode resp = http.StatusUnsupportedMediaType)).
    { eexists. split; [reflexivity|]. simpl. apply Hseed. }
    destruct (Body_err resp) as [rerr|].
    { eexists. split; [reflexivity|]. simpl. apply Hseed. }
    destruct (decide (mime_ParseMediaType L _ = "application/json")).
    + destruct (json_Unmarshal L (Body resp) _) as [left_ [uerr|]]; simpl.
      * destruct (decide (Code left_ = "")) as [Hc|Hc];
          (eexists; split; [reflexivity|]); simpl; [apply Hseed|exact Hc].
      * destruct (decide (Code left_ = "")) as [Hc|Hc];
          (eexists; split; [reflexivity|]); simpl; [apply Hseed|exact Hc].
    + simpl.
      destruct (decide (StatusCodeToErrorCode E (init_from visit)
                          (StatusCode resp) = "")) as [Hc|Hc];
        (eexists; split; [reflexivity|]); simpl; apply Hseed.
  - destruct (decide (Z.quot (StatusCode resp) 100 = 2)); [discriminate|].
    intros [= <-]. eexists. split; [reflexivity|]. exact Hint.
Qed.

Lemma Sample_codes_nonempty :
  Forall (fun code => code <> "") (taxonomy Sample.codes).
Proof. unfold taxonomy. simpl. repeat constructor; discriminate. Qed.

Lemma CheckError_code_nonempty_witness :
  exists perr,
    as_Error (platformError "not found" "x" None) = Some perr /\ Code perr <> "".
Proof.
  apply (CheckError_code_nonempty Sample.lib Sample.codes
           (map_to_list (apiErrorToStatusCode Sample.codes)) Fixture.resp_not_found).
  - unfold range_order. reflexivity.
  - exact Sample_codes_nonempty.
  - vm_compute. reflexivity.
Defined.

(** ** The middleware, alone and composed *)

(** X11.  [SkipOptions] answers an [OPTIONS] request without [Origin] header
    with status 405, the same for every wrapped handler, and hands every
    other request to the wrapped handler without a call of its own. *)
Theorem SkipOptions_behaviour (next : Handler) (r : Request) (h : list event) :
  (Header_Get (Header r) "Origin" = "" ->
   Method r = "OPTIONS" ->
   SkipOptions next r h = (Done tt, h ++ [WriteHeader 405])) /\
  (Header_Get (Header r) "Origin" <> "" \/ Method r <> "OPTIONS" ->
   SkipOptions next r h = next r h).
Proof.
  unfold SkipOptions, http.MethodOptions, http.StatusMethodNotAllowed. split.
  - intros Ho Hm. destruct (decide _) as [_|Hn]; [reflexivity|].
    exfalso. by apply Hn.
  - intros Hno. destruct (decide _) as [[Ho Hm]|_]; [|reflexivity].
    destruct Hno; done.
Qed.

Lemma SkipOptions_behaviour_witness :
  SkipOptions Cases.hello
    {| Method := "OPTIONS"; Header := ∅; req_Context := Background |} []
  = (Done tt, [WriteHeader 405]) /\
  SkipOptions Cases.hello Cases.preflight []
  = (Done tt, [WriteHeader 200; Write "hello"]).
Proof.
  split.
  - apply (SkipOptions_behaviour Cases.hello
             {| Method := "OPTIONS"; Header := ∅; req_Context := Background |} []).
    + vm_compute. reflexivity.
    + reflexivity.
  - etransitivity.
    + apply (proj2 (SkipOptions_behaviour Cases.hello Cases.preflight [])).
      left. vm_compute. discriminate.
    + reflexivity.
Defined.

(** X12.  On a request without [Origin] header [SetCORS] never sets
    [Access-Control-Allow-Origin]: an [OPTIONS] request is answered with the
    allowed methods and headers and status 204, and any other request goes to
    the wrapped handler without a call of [SetCORS]'s own. *)
Theorem SetCORS_without_origin (next : Handler) (r : Request) (h : list event) :
  Header_Get (Header r) "Origin" = "" ->
  (Method r = "OPTIONS" ->
   SetCORS next r h =
     (Done tt,
      h ++ [HeaderSet "Access-Control-Allow-Methods" cors_methods;
            HeaderSet "Access-Control-Allow-Headers" cors_headers;
            WriteHeader 204])) /\
  (Method r <> "OPTIONS" -> SetCORS next r h = next r h).
Proof.
  intros Ho. unfold SetCORS, http.MethodOptions, http.StatusNoContent.
  rewrite Ho. destruct (decide ("" <> "")) as [Hne|_]; [done|].
  split; intros Hm; destruct (decide (Method r = "OPTIONS")); try done.
  unfold_M. simpl. by rewrite <- !app_assoc.
Qed.

Lemma SetCORS_without_origin_witness :
  SetCORS Cases.hello
    {| Method := "GET"; Header := ∅; req_Context := Background |} []
  = (Done tt, [WriteHeader 200; Write "hello"]).
Proof.
  etransitivity.
  - apply (SetCORS_without_origin Cases.hello
             {| Method := "GET"; Header := ∅; req_Context := Background |} []).
    + vm_compute. reflexivity.
    + simpl. discriminate.
  - reflexivity.
Defined.

(** X13.  Behind [SetCORS], [SkipOptions] changes nothing: [SetCORS] answers
    every [OPTIONS] request itself, so [SetCORS(SkipOptions(next))] behaves
    as [SetCORS(next)] on every request. *)
Theorem SetCORS_absorbs_SkipOptions (next : Handler) (r : Request) (h : list event) :
  SetCORS (SkipOptions next) r h = SetCORS next r h.
Proof.
  unfold SetCORS.
  destruct (decide (Method r = http.MethodOptions)) as [Hm|Hm].
  - reflexivity.
  - unfold_M.
    destruct (decide (Header_Get (Header r) "Origin" <> "")); simpl;
      unfold SkipOptions;
      (destruct (decide (_ /\ _)) as [[_ Hm']|_]; [done|reflexivity]).
Qed.

(** X14.  Behind [SkipOptions] and then [SetCORS], no [OPTIONS] request
    reaches the handler: without [Origin] it is answered 405 and no CORS
    header is set; with [Origin] it is answered as a pre-flight, 204. *)
Theorem SkipOptions_then_SetCORS (next : Handler) (r : Request) (h : list event) :
  Method r = "OPTIONS" ->
  SkipOptions (SetCORS next) r h =
    (Done tt,
     h ++ (if decide (Header_Get (Header r) "Origin" = "")
           then [WriteHeader 405]
           else [HeaderSet "Access-Control-Allow-Origin"
                   (Header_Get (Header r) "Origin");
                 HeaderSet "Access-Control-Allow-Methods" cors_methods;
                 HeaderSet "Access-Control-Allow-Headers" cors_headers;
                 WriteHeader 204])).
Proof.
  intros Hm. unfold SkipOptions, http.MethodOptions, http.StatusMethodNotAllowed.
  destruct (decide (Header_Get (Header r) "Origin" = "")) as [Ho|Ho].
  - destruct (decide (_ /\ _)) as [_|Hn]; [reflexivity|]. exfalso. by apply Hn.
  - destruct (decide (_ /\ _)) as [[Ho' _]|_]; [done|].
    unfold SetCORS, http.MethodOptions, http.StatusNoContent.
    destruct (decide (Header_Get (Header r) "Origin" <> "")); [|done].
    destruct (decide (Method r = "OPTIONS")); [|done].
    unfold_M. simpl. by rewrite <- !app_assoc.
Qed.

Lemma SkipOptions_then_SetCORS_witness :
  SkipOptions (SetCORS Cases.hello) Cases.preflight [] =
    (Done tt,
     [HeaderSet "Access-Control-Allow-Origin" "https://app.example";
      HeaderSet "Access-Control-Allow-Methods" cors_methods;
      HeaderSet "Access-Control-Allow-Headers" cors_headers;
      WriteHeader 204]).
Proof.
  etransitivity.
  - apply (SkipOptions_then_SetCORS Cases.hello Cases.preflight []). reflexivity.
  - reflexivity.
Defined.

(** ** The status response writer as a wrapper *)

Lemma int_wrap_add (a b : Z) : int_wrap (int_wrap a + b) = int_wrap (a + b).
Proof.
  unfold int_wrap.
  replace ((a + 2 ^ 63) `mod` 2 ^ 64 - 2 ^ 63 + b + 2 ^ 63)
    with ((a + 2 ^ 63) `mod` 2 ^ 64 + b) by lia.
  rewrite Z.add_mod_idemp_l by lia.
  f_equal. f_equal. lia.
Qed.

Lemma int_wrap_small (a : Z) : - 2 ^ 63 <= a < 2 ^ 63 -> int_wrap a = a.
Proof.
  intros Ha. unfold int_wrap. rewrite Z.mod_small by lia. lia.
Qed.

(** A sequence of methods returns, forwards its calls in order, and adds to
    the byte count what the wrapped writer reported. *)
Lemma srw_run_forwards (env : Env) (calls : list srw_call)
    (w : StatusResponseWriter) (h : list event) (total : Z) :
  responseBytes w = int_wrap total ->
  exists w',
    srw_run env w calls h = (Done w', h ++ forwarded env calls) /\
    responseBytes w' = int_wrap (total + reported env h calls).
Proof.
  revert w h total. induction calls as [|c calls IH]; intros w h total Hw.
  - exists w. simpl. rewrite app_nil_r, Z.add_0_r. by split.
  - destruct c as [b| |code]; simpl; unfold_M; simpl.
    + unfold srw_Write, w_Write. unfold_M. simpl.
      destruct (IH {| statusCode := statusCode w;
                      responseBytes :=
                        int_wrap (responseBytes w + (sink_Write env h b).1) |}
                   (h ++ [Write b]) (total + (sink_Write env h b).1))
        as (w' & Hrun & Hb).
      { simpl. rewrite Hw. apply int_wrap_add. }
      exists w'. rewrite Hrun, Hb. rewrite <- app_assoc. split; [reflexivity|].
      f_equal. lia.
    + unfold srw_Flush. unfold_M.
      destruct (sink_is_Flusher env); simpl.
      * destruct (IH w (h ++ [Flush]) total Hw) as (w' & Hrun & Hb).
        exists w'. rewrite Hrun, Hb. rewrite <- app_assoc. by split.
      * rewrite app_nil_r.
        destruct (IH w h total Hw) as (w' & Hrun & Hb).
        exists w'. rewrite Hrun, Hb. by split.
    + unfold srw_WriteHeader. unfold_M. simpl.
      destruct (IH {| statusCode := code; responseBytes := responseBytes w |}
                   (h ++ [WriteHeader code]) total Hw) as (w' & Hrun & Hb).
      exists w'. rewrite Hrun, Hb. rewrite <- app_assoc. by split.
Qed.

(** X15.  A [StatusResponseWriter] is transparent: every sequence of its
    methods returns and makes on the wrapped writer exactly the calls it was
    asked to make, in the same order and with the same arguments ([Flush]
    only when the wrapped writer is a flusher). *)
Theorem srw_run_transparent (env : Env) (calls : list srw_call) (h : list event) :
  exists w,
    srw_run env NewStatusResponseWriter calls h = (Done w, h ++ forwarded env calls).
Proof.
  destruct (srw_run_forwards env calls NewStatusResponseWriter h 0 eq_refl)
    as (w & Hrun & _).
  by exists w.
Qed.

(** X16.  After any sequence of methods on a fresh [StatusResponseWriter],
    [ResponseBytes()] is the sum of the byte counts the wrapped writer
    reported for the writes (not of the lengths asked for), wrapped to 64
    bits; it is that sum itself when the sum fits. *)
Theorem ResponseBytes_after_calls (env : Env) (calls : list srw_call)
    (h : list event) :
  exists w h',
    srw_run env NewStatusResponseWriter calls h = (Done w, h') /\
    srw_ResponseBytes w = int_wrap (reported env h calls) /\
    (- 2 ^ 63 <= reported env h calls < 2 ^ 63 ->
     srw_ResponseBytes w = reported env h calls).
Proof.
  destruct (srw_run_forwards env calls NewStatusResponseWriter h 0 eq_refl)
    as (w & Hrun & Hb).
  exists w, (h ++ forwarded env calls). split; [exact Hrun|].
  unfold srw_ResponseBytes. rewrite Hb, Z.add_0_l. split; [reflexivity|].
  apply int_wrap_small.
Qed.

Lemma ResponseBytes_after_calls_witness :
  exists w h',
    srw_run Sample.broken NewStatusResponseWriter
      [CallWriteHeader 200; CallWrite "hello"; CallWrite "world"] [] = (Done w, h') /\
    srw_ResponseBytes w = 0.
Proof.
  destruct (ResponseBytes_after_calls Sample.broken
              [CallWriteHeader 200; CallWrite "hello"; CallWrite "world"] [])
    as (w & h' & Hrun & _ & Hsum).
  exists w, h'. split; [exact Hrun|].
  rewrite Hsum; [reflexivity|]. vm_compute.
  split; [intros Hgt; discriminate Hgt|reflexivity].
Defined.

(** X17.  [StatusCodeClass()] is the hundreds digit of [Code()] followed by
    [XX] for codes from 100 to 599, and [XXX] for every other code, negative
    ones included; a writer on which [WriteHeader] was never called is of
    class [2XX]. *)
Theorem StatusCodeClass_ranges (w : StatusResponseWriter) :
  (100 <= srw_Code w <= 199 -> srw_StatusCodeClass w = "1XX") /\
  (200 <= srw_Code w <= 299 -> srw_StatusCodeClass w = "2XX") /\
  (300 <= srw_Code w <= 399 -> srw_StatusCodeClass w = "3XX") /\
  (400 <= srw_Code w <= 499 -> srw_StatusCodeClass w = "4XX") /\
  (500 <= srw_Code w <= 599 -> srw_StatusCodeClass w = "5XX") /\
  (srw_Code w < 100 \/ 600 <= srw_Code w -> srw_StatusCodeClass w = "XXX") /\
  (statusCode w = 0 -> srw_StatusCodeClass w = "2XX").
Proof.
  assert (Hfresh : statusCode w = 0 -> srw_Code w = 200).
  { intros H0. unfold srw_Code. rewrite H0. reflexivity. }
  unfold srw_StatusCodeClass.
  repeat split; intros Hr; try apply Hfresh in Hr;
    repeat (destruct (decide (Z.quot (srw_Code w) 100 = _)));
    try reflexivity; exfalso; Z.to_euclidean_division_equations; lia.
Qed.

Lemma StatusCodeClass_ranges_witness :
  srw_StatusCodeClass NewStatusResponseWriter = "2XX" /\
  srw_StatusCodeClass {| statusCode := -150; responseBytes := 0 |} = "XXX" /\
  srw_StatusCodeClass {| statusCode := 503; responseBytes := 0 |} = "5XX".
Proof.
  split; [|split].
  - apply (StatusCodeClass_ranges NewStatusResponseWriter). reflexivity.
  - apply (proj1 (proj2 (proj2 (proj2 (proj2 (proj2
             (StatusCodeClass_ranges
                {| statusCode := -150; responseBytes := 0 |}))))))).
    left. vm_compute. reflexivity.
  - apply (proj1 (proj2 (proj2 (proj2 (proj2
             (StatusCodeClass_ranges
                {| statusCode := 503; responseBytes := 0 |})))))).
    vm_compute. split; intros Hgt; discriminate Hgt.
Defined.

(** ** Decoding, configured *)

(** X18.  With a nil [*API] or the configuration [NewAPI()] builds from no
    options, [decode] answers nil exactly when the decoder succeeded and the
    target, if it has an [OK] method, passed it.  With an [okErrFn]
    configured the answer for a target with an [OK] method is what the
    formatter makes of the result of [OK], nil included. *)
Theorem decode_nil_iff {Payload V : Type} (L : Library Payload) (E : ErrorCodes)
    (a : option (API Payload)) (encoding : string)
    (dec : V -> V * option error) (oker : option (V -> option error)) (v : V) :
  (a = None \/ a = Some (NewAPI L E []) ->
   ((decode a encoding dec oker v).2 = None <->
    (dec v).2 = None /\ forall OK, oker = Some OK -> OK (dec v).1 = None)) /\
  (forall api fn OK,
     a = Some api -> okErrFn api = Some fn -> oker = Some OK ->
     (dec v).2 = None ->
     (decode a encoding dec oker v).2 = fn (OK (dec v).1)).
Proof.
  split.
  - intros Ha. unfold decode.
    destruct (dec v) as [v' [err|]]; simpl.
    + destruct Ha as [-> | ->]; simpl; split; try discriminate;
        intros [Hd _]; discriminate Hd.
    + assert (Hok : a ≫= okErrFn = None) by (destruct Ha as [-> | ->]; reflexivity).
      destruct oker as [OK|]; [rewrite Hok|]; simpl.
      * split; [intros Hr; split; [reflexivity|]; by intros ? [= <-]|].
        intros [_ Hall]. by apply Hall.
      * split; [|reflexivity]. intros _. split; [reflexivity|]. discriminate.
  - intros api fn OK -> Hfn -> Hd. unfold decode.
    destruct (dec v) as [v' [err|]]; simpl in *; [discriminate Hd|].
    by rewrite Hfn.
Qed.

Lemma decode_nil_iff_witness :
  (decode (Some (NewAPI Sample.lib Sample.codes [])) "gob"
     (Cases.NewDecoder "{}") (Some Cases.OK) "").2 <> None /\
  (decode (Some (NewAPI Sample.lib Sample.codes
                   [WithOKErrFn (Some (fun _ => Some (errorString "rejected")))]))
     "json" (Cases.NewDecoder "[]") (Some Cases.OK) "").2
  = Some (errorString "rejected").
Proof.
  split.
  - intros Hnil.
    apply (proj1 (decode_nil_iff Sample.lib Sample.codes
                    (Some (NewAPI Sample.lib Sample.codes [])) "gob"
                    (Cases.NewDecoder "{}") (Some Cases.OK) "")) in Hnil;
      [|right; reflexivity].
    destruct Hnil as [_ Hall]. specialize (Hall Cases.OK eq_refl).
    vm_compute in Hall. discriminate Hall.
  - apply (proj2 (decode_nil_iff Sample.lib Sample.codes _ "json"
                    (Cases.NewDecoder "[]") (Some Cases.OK) "")
             (NewAPI Sample.lib Sample.codes
                [WithOKErrFn (Some (fun _ => Some (errorString "rejected")))])
             (fun _ => Some (errorString "rejected")) Cases.OK);
      reflexivity.
Defined.

(** ** Options *)

Lemma foldl_options_gzip {Payload : Type} (os : list (api_option Payload))
    (api : API Payload) :
  encodeGZIP (foldl (fun api o => o api) api (option_fn <$> os))
  = encodeGZIP api || has_gzip os.
Proof.
  revert api. induction os as [|o os IH]; intros api; simpl.
  - by rewrite orb_false_r.
  - rewrite IH. destruct o; simpl; try reflexivity. by rewrite orb_true_r.
Qed.

Lemma foldl_options_pretty {Payload : Type} (os : list (api_option Payload))
    (api : API Payload) :
  prettyJSON (foldl (fun api o => o api) api (option_fn <$> os))
  = default (prettyJSON api) (last_pretty os).
Proof.
  revert api. induction os as [|o os IH]; intros api; simpl; [reflexivity|].
  rewrite IH. destruct (last_pretty os); [reflexivity|]. by destruct o.
Qed.

(** X19.  [NewAPI] applies its options in order: the configuration gzips
    exactly when [WithEncodeGZIP] is among the options (no option turns it
    off again), and indents according to the last [WithPrettyJSON], or does
    indent when there is none. *)
Theorem NewAPI_options {Payload : Type} (L : Library Payload) (E : ErrorCodes)
    (os : list (api_option Payload)) :
  encodeGZIP (NewAPI L E (option_fn <$> os)) = has_gzip os /\
  prettyJSON (NewAPI L E (option_fn <$> os)) = default true (last_pretty os).
Proof.
  unfold NewAPI. rewrite foldl_options_gzip, foldl_options_pretty. by split.
Qed.

(** ** Headers and bytes across [write] *)

Lemma headers_after_app (h t : list event) :
  headers_after (h ++ t) = foldl set_header (headers_after h) t.
Proof. unfold headers_after. apply foldl_app. Qed.

Lemma headers_frame (key : string) (t : list event) (m : gmap string string) :
  Forall (keeps_header key) t -> foldl set_header m t !! key = m !! key.
Proof.
  intros Ht. revert m. induction Ht as [|e t He Ht IH]; intros m; simpl;
    [reflexivity|].
  rewrite IH. destruct e; simpl in *; try reflexivity.
  by rewrite lookup_insert_ne.
Qed.

Lemma sets_nothing_keeps (key : string) (t : list event) :
  Forall sets_nothing t -> Forall (keeps_header key) t.
Proof.
  intros Ht. eapply Forall_impl; [exact Ht|]. by intros [].
Qed.

Lemma sets_nothing_body (t : list event) :
  Forall sets_nothing t -> body_writes t = [].
Proof.
  intros Ht. induction Ht as [|e t He Ht IH]; simpl; [reflexivity|].
  by destruct e.
Qed.

(** [write], whatever the configuration and whatever fails: the status, the
    bytes through the closer, then only log records and closes. *)
Lemma write_shape {Payload : Type} (env : Env) (a : option (API Payload))
    (wc : WriteCloser) (status : Z) (b : string) (h : list event) :
  exists o t,
    write env a wc status b h =
      (o, h ++ WriteHeader status :: write_event wc b :: t) /\
    o <> OutOfFuel /\
    Forall sets_nothing t.
Proof.
  unfold write, api_log_write, log_call.
  destruct wc as [|id]; simpl; unfold w_Write; unfold_M; simpl.
  - destruct (sink_Write env (h ++ [WriteHeader status]) b) as [k [werr|]]; simpl.
    + destruct a as [api|]; [destruct (logger api) as [lg|]|]; simpl;
        rewrite <- ?app_assoc; simpl; do 2 eexists;
        (split; [reflexivity|]); (split; [done|]); repeat constructor.
    + rewrite <- ?app_assoc; simpl; do 2 eexists;
        (split; [reflexivity|]); (split; [done|]); repeat constructor.
  - destruct (gzip_Write env (h ++ [WriteHeader status]) id b) as [k [werr|]]; simpl.
    + destruct a as [api|]; [destruct (logger api) as [lg|]|]; simpl.
      * destruct (gzip_Close env _ id); simpl;
          rewrite <- ?app_assoc; simpl; do 2 eexists;
          (split; [reflexivity|]); (split; [done|]); repeat constructor.
      * rewrite <- ?app_assoc; simpl; do 2 eexists;
          (split; [reflexivity|]); (split; [done|]); repeat constructor.
      * rewrite <- ?app_assoc; simpl; do 2 eexists;
          (split; [reflexivity|]); (split; [done|]); repeat constructor.
    + destruct (gzip_Close env _ id); simpl.
      * destruct a as [api|]; [destruct (logger api) as [lg|]|]; simpl;
          rewrite <- ?app_assoc; simpl; do 2 eexists;
          (split; [reflexivity|]); (split; [done|]); repeat constructor.
      * rewrite <- ?app_assoc; simpl; do 2 eexists;
          (split; [reflexivity|]); (split; [done|]); repeat constructor.
Qed.

Lemma write_event_body (wc : WriteCloser) (b : string) :
  body_writes [write_event wc b] = [b].
Proof. by destruct wc. Qed.

Lemma writes_of_app (h t : list event) :
  writes_of (h ++ t) = writes_of h ++ writes_of t.
Proof.
  induction h as [|e h IH]; simpl; [reflexivity|].
  destruct e; simpl; by rewrite ?IH.
Qed.

Lemma sets_nothing_writes (t : list event) :
  Forall sets_nothing t -> writes_of t = [].
Proof.
  intros Ht. induction Ht as [|e t He Ht IH]; simpl; [reflexivity|].
  by destruct e.
Qed.

Lemma writes_of_write_event (wc : WriteCloser) (b : string) :
  writes_of [write_event wc b] = [write_event wc b].
Proof. by destruct wc. Qed.

(** What was added after the preamble, the status and the bytes through the
    selected writer holds that one write and no other. *)
Lemma writes_of_added {Payload : Type} (a : option (API Payload))
    (pre : list event) (status : Z) (b : string) (h t : list event) :
  writes_of pre = [] ->
  Forall sets_nothing t ->
  writes_of (added h ((h ++ pre)
                        ++ WriteHeader status
                             :: write_event (selected_writer a h) b :: t))
  = [if uses_gzip a then GzipWrite (S (length h)) b else Write b].
Proof.
  intros Hpre Ht. unfold added. rewrite <- app_assoc, drop_app_length.
  change (WriteHeader status :: write_event (selected_writer a h) b :: t)
    with ([WriteHeader status] ++ [write_event (selected_writer a h) b] ++ t).
  rewrite !writes_of_app, Hpre, writes_of_write_event, (sets_nothing_writes t Ht).
  unfold selected_writer. by destruct (uses_gzip a).
Qed.

(** X20.  [Write] with a status other than 204 hands the bytes it was given
    to the selected writer exactly once and unchanged, and makes no other
    write, whatever the configuration and whatever then fails: with gzip
    enabled the one write is on the gzip writer this call created, otherwise
    it is on the response writer itself.  Unlike [Respond] it leaves the
    [Content-Type] header as it was, and it sets [Content-Encoding] to [gzip]
    exactly when gzip is enabled. *)
Theorem API_Write_hands_bytes_once {Payload : Type} (env : Env)
    (a : option (API Payload)) (status : Z) (b : string) (h : list event) :
  status <> 204 ->
  exists o h',
    API_Write env a status b h = (o, h') /\
    writes_of (added h h')
      = [if uses_gzip a then GzipWrite (S (length h)) b else Write b] /\
    (uses_gzip a = true -> GzipNewWriter (S (length h)) ∈ added h h') /\
    body_writes h' = body_writes h ++ [b] /\
    headers_after h' !! "Content-Type" = headers_after h !! "Content-Type" /\
    headers_after h' !! "Content-Encoding" =
      (if uses_gzip a then Some "gzip" else headers_after h !! "Content-Encoding").
Proof.
  intros Hs. rewrite (API_Write_steps env a status b h Hs).
  destruct (write_shape env a (selected_writer a h) status b
              (h ++ write_preamble a h)) as (o & t & Hw & Hfuel & Ht).
  unfold defer_. rewrite Hw.
  set (wc := selected_writer a h) in *.
  assert (Hfinal : exists t',
             (let (o0, h') :=
                (o, (h ++ write_preamble a h)
                      ++ WriteHeader status :: write_event wc b :: t) in
              match o0 with
              | OutOfFuel => (OutOfFuel, h')
              | _ =>
                  match wc_Close env noopCloser h' with
                  | (Panic s, h'') => (Panic s, h'')
                  | (_, h'') => (o0, h'')
                  end
              end) =
             (o, (h ++ write_preamble a h)
                   ++ WriteHeader status :: write_event wc b :: t') /\
             Forall sets_nothing t').
  { destruct o as [x|s|]; [| |done]; unfold_M; simpl;
      exists (t ++ [NoopClose]);
      (split; [by rewrite <- !app_assoc|]);
      (apply Forall_app; split; [exact Ht|repeat constructor]). }
  destruct Hfinal as (t' & -> & Ht').
  exists o. eexists. split; [reflexivity|].
  assert (Hhdr : forall key,
             headers_after ((h ++ write_preamble a h)
                              ++ WriteHeader status :: write_event wc b :: t') !! key
             = headers_after (h ++ write_preamble a h) !! key).
  { intros key. rewrite (headers_after_app (h ++ write_preamble a h)).
    apply headers_frame. constructor; [exact I|].
    constructor; [by destruct wc|]. by apply sets_nothing_keeps. }
  split; [|split; [|split; [|split]]].
  - subst wc. apply writes_of_added; [|exact Ht'].
    unfold write_preamble. by destruct (uses_gzip a).
  - intros Hgz. unfold added. rewrite <- app_assoc, drop_app_length.
    unfold write_preamble. rewrite Hgz.
    rewrite !elem_of_app. left. rewrite !elem_of_cons. right. by left.
  - rewrite !body_writes_app.
    change (WriteHeader status :: write_event wc b :: t')
      with ([WriteHeader status] ++ [write_event wc b] ++ t').
    rewrite !body_writes_app, write_event_body, (sets_nothing_body t' Ht').
    unfold write_preamble. destruct (uses_gzip a); simpl;
      by rewrite ?app_nil_r.
  - rewrite Hhdr, headers_after_app. unfold write_preamble.
    destruct (uses_gzip a); simpl; [|reflexivity].
    by rewrite lookup_insert_ne.
  - rewrite Hhdr, headers_after_app. unfold write_preamble.
    destruct (uses_gzip a); simpl; [|reflexivity].
    by rewrite lookup_insert_eq.
Qed.

Lemma API_Write_hands_bytes_once_witness :
  exists o h',
    API_Write Sample.broken (Some Cases.zipped) 200 "payload" [] = (o, h') /\
    writes_of (added [] h') = [GzipWrite 1 "payload"] /\
    (true = true -> GzipNewWriter 1 ∈ added [] h') /\
    body_writes h' = [] ++ ["payload"] /\
    headers_after h' !! "Content-Type" = None /\
    headers_after h' !! "Content-Encoding" = Some "gzip".
Proof.
  apply (API_Write_hands_bytes_once Sample.broken (Some Cases.zipped) 200
           "payload" []).
  lia.
Defined.

(** ** Error responses, to the header map *)

(** X21.  [WriteErrorResponse] always returns, whatever the writer answers
    and even if the envelope cannot be encoded: it leaves the error-code
    header at the code and the content type at JSON, writes a status from 400
    to 599 and hands the writer one byte string, the encoded envelope. *)
Theorem WriteErrorResponse_always_answers {Payload : Type} (L : Library Payload)
    (E : ErrorCodes) (env : Env) (ctx : Context) (code msg : string)
    (h : list event) :
  exists h',
    WriteErrorResponse L E env ctx code msg h = (Done tt, h') /\
    headers_after h' !! PlatformErrorCodeHeader = Some code /\
    headers_after h' !! "Content-Type" = Some json_content_type /\
    body_writes h' = body_writes h ++ [envelope_bytes L code msg] /\
    exists status, WriteHeader status ∈ added h h' /\ 400 <= status < 600.
Proof.
  exists (h ++ error_response L E ctx code msg).
  split; [apply WriteErrorResponse_events|].
  unfold error_response. split; [|split; [|split]].
  - rewrite headers_after_app. simpl.
    rewrite lookup_insert_ne by done. by rewrite lookup_insert_eq.
  - rewrite headers_after_app. simpl. by rewrite lookup_insert_eq.
  - by rewrite body_writes_app.
  - exists (ErrorCodeToStatusCode E ctx code). split; [|apply error_status_range].
    unfold added. rewrite drop_app_length.
    rewrite !elem_of_cons. right. right. by left.
Qed.

(** ** [Respond] and [Err], path by path *)

Lemma write_trace_added (env : Env) (lg : Logger)
    (wc : WriteCloser) (status : Z) (b : string) (h : list event) :
  write_trace env lg wc status b h = h ++ write_added env lg wc status b h.
Proof.
  unfold write_trace, write_added. rewrite <- !app_assoc. reflexivity.
Qed.

Lemma write_added_keeps (env : Env) (lg : Logger) (wc : WriteCloser) (status : Z)
    (b : string) (h : list event) (key : string) :
  Forall (keeps_header key) (write_added env lg wc status b h).
Proof.
  unfold write_added, write_failure_log. simpl.
  constructor; [exact I|]. constructor; [by destruct wc|].
  destruct (write_answer env _ wc b); simpl;
    (destruct (close_answer env _ wc); simpl);
    repeat constructor; by destruct wc.
Qed.

Lemma write_added_body (env : Env) (lg : Logger) (wc : WriteCloser) (status : Z)
    (b : string) (h : list event) :
  body_writes (write_added env lg wc status b h) = [b].
Proof.
  unfold write_added, write_failure_log.
  change ([WriteHeader status; write_event wc b] ++ ?t)
    with ([WriteHeader status] ++ [write_event wc b] ++ t).
  rewrite !body_writes_app, write_event_body. simpl.
  destruct (write_answer env _ wc b); simpl;
    (destruct (close_answer env _ wc); simpl);
    by destruct wc.
Qed.

Lemma preamble_body {Payload : Type} (a : option (API Payload)) (h : list event) :
  body_writes (respond_preamble a h) = [].
Proof. unfold respond_preamble. by destruct (uses_gzip a). Qed.

(** X22.  Under a configuration without logger (as [NewAPI()] builds it when
    [WithLog] is not given) or with a nil [*API], if the write of the body
    fails then [Respond] panics on the missing logger: the status and the
    bytes were handed over, the closer that was selected is not closed, and
    only the deferred close of the [noopCloser] still runs. *)
Theorem Respond_panics_without_logger {Payload : Type} (L : Library Payload)
    (env : Env) (fuel : nat) (a : option (API Payload)) (r : Request)
    (status : Z) (v : value Payload) (b : string) (err : error) (h : list event) :
  status <> 204 ->
  a ≫= logger = None ->
  marshal_for L a v = inl b ->
  write_answer env ((h ++ respond_preamble a h) ++ [WriteHeader status])
    (selected_writer a h) b = Some err ->
  Respond L env fuel a r status v h =
    (Panic nil_dereference,
     (h ++ respond_preamble a h)
       ++ [WriteHeader status; write_event (selected_writer a h) b; NoopClose]).
Proof.
  intros Hs Hlg Hm Hw. unfold Respond.
  rewrite (Respond_with_steps L env _ a r status v h Hs), Hm.
  set (h0 := h ++ respond_preamble a h) in *.
  set (wc := selected_writer a h) in *.
  unfold defer_, write, api_log_write, log_call.
  assert (Hnolog : match a with
                   | Some api => logger api = None
                   | None => True
                   end).
  { destruct a as [api|]; [exact Hlg|exact I]. }
  destruct wc as [|id]; simpl in *; unfold w_Write; unfold_M; simpl.
  - destruct (sink_Write env (h0 ++ [WriteHeader status]) b) as [k werr].
    simpl in Hw. subst werr. simpl.
    destruct a as [api|]; [rewrite Hnolog|]; simpl;
      by rewrite <- !app_assoc.
  - destruct (gzip_Write env (h0 ++ [WriteHeader status]) id b) as [k werr].
    simpl in Hw. subst werr. simpl.
    destruct a as [api|]; [rewrite Hnolog|]; simpl;
      by rewrite <- !app_assoc.
Qed.

Lemma Respond_panics_without_logger_witness :
  Respond Sample.lib Sample.broken 0 (Some (NewAPI Sample.lib Sample.codes []))
    Cases.fetch 200 (VPayload "hi") [] =
  (Panic nil_dereference,
   [ HeaderSet "Content-Type" "application/json; charset=utf-8";
     WriteHeader 200; Write (Sample.dq_wrapped "hi"); NoopClose ]).
Proof.
  apply (Respond_panics_without_logger Sample.lib Sample.broken 0
           (Some (NewAPI Sample.lib Sample.codes [])) Cases.fetch 200
           (VPayload "hi") (Sample.dq_wrapped "hi") (errorString "broken pipe") []).
  - lia.
  - reflexivity.
  - reflexivity.
  - reflexivity.
Defined.

(** X23.  When the configured error formatter itself answers an error, [Err]
    logs that error and responds with status 500 and the fixed internal
    error body; the formatter's value and status are dropped, and the
    error-code header is left as it was. *)
Theorem Err_formatter_failure {Payload : Type} (L : Library Payload) (env : Env)
    (fuel : nat) (api : API Payload) (lg : Logger)
    (fn : Context -> error -> value Payload * Z * option error)
    (r : Request) (err ferr : error) (v : value Payload) (status : Z)
    (b : string) (h : list event) :
  logger api = Some lg ->
  errFn api = Some fn ->
  fn (req_Context r) err = (v, status, Some ferr) ->
  marshal_for L (Some api) (VErrBody fallback_body) = inl b ->
  exists h',
    API_Err L env (S fuel) (Some api) r (Some err) h = (Done tt, h') /\
    (let h1 := h ++ [Log "error" lg "failed to write err to response writer" ferr] in
     h' = write_trace env lg (selected_writer (Some api) h1) 500 b
            (h1 ++ respond_preamble (Some api) h1) ++ [NoopClose]) /\
    body_writes h' = body_writes h ++ [b] /\
    headers_after h' !! PlatformErrorCodeHeader
      = headers_after h !! PlatformErrorCodeHeader.
Proof.
  intros Hlg Hfn Hres Hm.
  set (h1 := h ++ [Log "error" lg "failed to write err to response writer" ferr]).
  exists (write_trace env lg (selected_writer (Some api) h1) 500 b
            (h1 ++ respond_preamble (Some api) h1) ++ [NoopClose]).
  split; [|split; [reflexivity|split]].
  - simpl. rewrite Hfn, Hres, Hlg. unfold log_call. unfold_M. simpl.
    rewrite app_nil_r.
    pose proof (Respond_success_trace L env fuel api lg r 500
                  (VErrBody fallback_body) b h1) as Hnested.
    unfold Respond in Hnested. apply Hnested; [lia|exact Hlg|exact Hm].
  - rewrite write_trace_added. unfold h1.
    rewrite !body_writes_app, write_added_body, preamble_body. simpl.
    by rewrite !app_nil_r.
  - rewrite write_trace_added. unfold h1.
    rewrite <- !app_assoc. rewrite headers_after_app.
    apply headers_frame.
    apply Forall_app_2; [repeat constructor|].
    apply Forall_app_2.
    + unfold respond_preamble. destruct (uses_gzip (Some api));
        repeat constructor; done.
    + apply Forall_app_2; [apply write_added_keeps|repeat constructor].
Qed.

Lemma Err_formatter_failure_witness :
  exists h',
    API_Err Sample.lib Sample.quiet 1 (Some Formatters.api_failing) Cases.fetch
      (Some (errorString "disk full")) [] = (Done tt, h') /\
    body_writes h' =
      [] ++ [Sample.encode_fields "internal error" "an unexpected error occurred"] /\
    headers_after h' !! PlatformErrorCodeHeader
      = headers_after [] !! PlatformErrorCodeHeader.
Proof.
  destruct (Err_formatter_failure Sample.lib Sample.quiet 0
              Formatters.api_failing [] Formatters.failing Cases.fetch
              (errorString "disk full") (errorString "formatter broke")
              (VPayload "") 418
              (Sample.encode_fields "internal error" "an unexpected error occurred")
              [] eq_refl eq_refl eq_refl eq_refl)
    as (h' & Hrun & _ & Hbody & Hhdr).
  exists h'. split; [exact Hrun|]. split; [exact Hbody|exact Hhdr].
Defined.

Section Unbounded.
Context {Payload : Type}.
Variable L : Library Payload.
Variable env : Env.

Lemma defer_out_of_fuel {A B : Type} (d : M B) (c : M A) (h : list event) :
  (c h).1 = OutOfFuel -> (defer_ d c h).1 = OutOfFuel.
Proof.
  unfold defer_. destruct (c h) as [o h']. simpl. by intros ->.
Qed.

(** With a formatter whose value the encoder always rejects, [Err] exhausts
    every fuel. *)
Lemma API_Err_exhausts (api : API Payload)
    (fn : Context -> error -> value Payload * Z * option error) (r : Request) :
  errFn api = Some fn ->
  (forall ctx e, exists v' s' e',
      fn ctx e = (v', s', None) /\ s' <> 204 /\
      marshal_for L (Some api) v' = inr e') ->
  forall fuel err h,
    (API_Err L env fuel (Some api) r (Some err) h).1 = OutOfFuel.
Proof.
  intros Hfn Hbad. induction fuel as [|fuel IH]; intros err h; [reflexivity|].
  simpl. rewrite Hfn.
  destruct (Hbad (req_Context r) err) as (v' & s' & e' & -> & Hs' & Hm').
  destruct (as_ErrBody v') as [eb|]; unfold_M; simpl;
    rewrite (Respond_with_steps L env _ (Some api) r s' v' _ Hs'), Hm';
    apply defer_out_of_fuel; apply IH.
Qed.
End Unbounded.

(** X24.  When the value to respond with cannot be marshalled and the
    configured error formatter answers, for every error, a value that cannot
    be marshalled either (with a status other than 204 and no error of its
    own), [Respond] and [Err] keep calling each other: no amount of fuel lets
    the call return. *)
Theorem Respond_unbounded {Payload : Type} (L : Library Payload) (env : Env)
    (api : API Payload)
    (fn : Context -> error -> value Payload * Z * option error)
    (r : Request) (status : Z) (v : value Payload) (h : list event) :
  status <> 204 ->
  errFn api = Some fn ->
  (exists e, marshal_for L (Some api) v = inr e) ->
  (forall ctx e, exists v' s' e',
      fn ctx e = (v', s', None) /\ s' <> 204 /\
      marshal_for L (Some api) v' = inr e') ->
  forall fuel, (Respond L env fuel (Some api) r status v h).1 = OutOfFuel.
Proof.
  intros Hs Hfn [e Hm] Hbad fuel. unfold Respond.
  rewrite (Respond_with_steps L env _ (Some api) r status v h Hs), Hm.
  apply defer_out_of_fuel. by apply (API_Err_exhausts L env api fn r).
Qed.

Lemma Respond_unbounded_witness :
  (Respond Sample.lib Sample.quiet 1000 (Some Formatters.api_unencodable)
     Cases.fetch 200 (VPayload "") []).1 = OutOfFuel.
Proof.
  apply (Respond_unbounded Sample.lib Sample.quiet Formatters.api_unencodable
           Formatters.unencodable Cases.fetch 200 (VPayload "") []).
  - lia.
  - reflexivity.
  - exists (errorString "json: unsupported type"). reflexivity.
  - intros ctx e. exists (VPayload ""), 500, (errorString "json: unsupported type").
    split; [reflexivity|]. split; [lia|reflexivity].
Defined.

Lemma preamble_keeps {Payload : Type} (a : option (API Payload)) (h : list event)
    (key : string) :
  key <> "Content-Type" -> key <> "Content-Encoding" ->
  Forall (keeps_header key) (respond_preamble a h).
Proof.
  intros Hct Hce. unfold respond_preamble.
  destruct (uses_gzip a); repeat constructor; simpl; congruence.
Qed.

(** X25.  Under a configuration with a logger and the error formatter
    [NewAPI] installs, when the value cannot be marshalled but every
    [ErrBody] can, [Respond] returns after one nested call: the only bytes
    handed to the writer are the marshalled error body, the status written
    is that of the error's code, and the error-code header is left at that
    code. *)
Theorem Respond_failure_answers_error {Payload : Type} (L : Library Payload)
    (E : ErrorCodes) (env : Env) (fuel : nat) (api : API Payload) (lg : Logger)
    (r : Request) (status : Z) (v : value Payload) (err : error)
    (h : list event) :
  status <> 204 ->
  logger api = Some lg ->
  errFn api = Some (default_errFn L E) ->
  marshal_for L (Some api) v = inr err ->
  (forall eb, exists b, marshal_for L (Some api) (VErrBody eb) = inl b) ->
  exists b h',
    marshal_for L (Some api)
      (default_errFn L E (req_Context r) err).1.1 = inl b /\
    Respond L env (S fuel) (Some api) r status v h = (Done tt, h') /\
    body_writes h' = body_writes h ++ [b] /\
    headers_after h' !! PlatformErrorCodeHeader = Some (errors_ErrorCode L err) /\
    WriteHeader (ErrorCodeToStatusCode E (req_Context r) (errors_ErrorCode L err))
      ∈ added h h'.
Proof.
  intros Hs Hlg Hfn Hm Htotal.
  destruct (Respond_failure_reroutes L E env fuel api lg r status v err h
              Hs Hlg Hfn Hm Htotal) as (b & Hb & Hrun).
  exists b. eexists. split; [exact Hb|]. split; [exact Hrun|].
  rewrite write_trace_added. split; [|split].
  - rewrite !body_writes_app, write_added_body, !preamble_body. simpl.
    by rewrite !app_nil_r.
  - rewrite <- !app_assoc. rewrite (app_assoc h).
    rewrite (app_assoc (h ++ respond_preamble (Some api) h)).
    rewrite (headers_after_app
               ((h ++ respond_preamble (Some api) h)
                  ++ [HeaderSet PlatformErrorCodeHeader (errors_ErrorCode L err)])).
    rewrite headers_frame.
    + rewrite headers_after_app. simpl. by rewrite lookup_insert_eq.
    + apply Forall_app_2; [by apply preamble_keeps|].
      apply Forall_app_2; [apply write_added_keeps|repeat constructor].
  - unfold added. rewrite <- !app_assoc. rewrite drop_app_length.
    rewrite !elem_of_app. right. right. right. left.
    unfold write_added. simpl. by left.
Qed.

Lemma Respond_failure_answers_error_witness :
  exists b h',
    marshal_for Sample.lib (Some Formatters.api_logged)
      (default_errFn Sample.lib Sample.codes (req_Context Cases.fetch)
         (errorString "json: unsupported type")).1.1 = inl b /\
    Respond Sample.lib Sample.quiet 1 (Some Formatters.api_logged) Cases.fetch
      200 (VPayload "") [] = (Done tt, h') /\
    body_writes h' = [] ++ [b] /\
    headers_after h' !! PlatformErrorCodeHeader = Some "internal error" /\
    WriteHeader 500 ∈ added [] h'.
Proof.
  apply (Respond_failure_answers_error Sample.lib Sample.codes Sample.quiet 0
           Formatters.api_logged [] Cases.fetch 200 (VPayload "")
           (errorString "json: unsupported type") []).
  - lia.
  - reflexivity.
  - reflexivity.
  - reflexivity.
  - intros eb. eexists. reflexivity.
Defined.

(** ** What [Respond] leaves, on every path *)

Section ContentType.
Context {Payload : Type}.
Variable L : Library Payload.
Variable env : Env.

Lemma sets_nothing_json (t : list event) :
  Forall sets_nothing t -> Forall keeps_json t.
Proof. intros Ht. eapply Forall_impl; [exact Ht|]. by intros []. Qed.

Lemma json_kept (t : list event) (m : gmap string string) :
  Forall keeps_json t ->
  m !! "Content-Type" = Some json_content_type ->
  foldl set_header m t !! "Content-Type" = Some json_content_type.
Proof.
  intros Ht. revert m. induction Ht as [|e t He Ht IH]; intros m Hm; simpl;
    [exact Hm|].
  apply IH. destruct e as [k val| | | | | | | |]; simpl in *; try exact Hm.
  destruct (decide (k = "Content-Type")) as [->|Hk].
  - rewrite lookup_insert_eq. f_equal. by apply He.
  - by rewrite lookup_insert_ne.
Qed.

Lemma write_adds_json (a : option (API Payload)) (wc : WriteCloser) (status : Z)
    (b : string) :
  adds_only keeps_json (write env a wc status b).
Proof.
  intros h. destruct (write_shape env a wc status b h) as (o & t & Hw & _ & Ht).
  exists o, (WriteHeader status :: write_event wc b :: t). split; [exact Hw|].
  constructor; [exact I|]. constructor; [by destruct wc|].
  by apply sets_nothing_json.
Qed.

Lemma defer_noop_adds {A : Type} (P : event -> Prop) (c : M A)
    (h0 h : list event) :
  P NoopClose ->
  (exists o t, c h0 = (o, h ++ t) /\ Forall P t) ->
  exists o t, defer_ (wc_Close env noopCloser) c h0 = (o, h ++ t) /\ Forall P t.
Proof.
  intros Hp (o & t & Hc & Ht). unfold defer_. rewrite Hc.
  destruct o as [x|s|]; simpl; unfold_M; simpl.
  - exists (Done x), (t ++ [NoopClose]). rewrite app_assoc. split; [reflexivity|].
    apply Forall_app_2; [exact Ht|by constructor].
  - exists (Panic s), (t ++ [NoopClose]). rewrite app_assoc. split; [reflexivity|].
    apply Forall_app_2; [exact Ht|by constructor].
  - exists OutOfFuel, t. by split.
Qed.

Lemma adds_after {A : Type} (P : event -> Prop) (c : M A) (h pre : list event) :
  Forall P pre ->
  adds_only P c ->
  exists o t, c (h ++ pre) = (o, h ++ t) /\ Forall P t.
Proof.
  intros Hpre Hc. destruct (Hc (h ++ pre)) as (o & t & Heq & Ht).
  exists o, (pre ++ t). rewrite app_assoc. split; [exact Heq|].
  by apply Forall_app_2.
Qed.

Lemma preamble_json (a : option (API Payload)) (h : list event) :
  Forall keeps_json (respond_preamble a h).
Proof.
  unfold respond_preamble. destruct (uses_gzip a); repeat constructor; simpl;
    first [reflexivity | discriminate].
Qed.

(** [Respond] sets [Content-Type] to nothing but JSON, if [Err] does not. *)
Lemma Respond_with_adds_json
    (Err_ : option (API Payload) -> Request -> option error -> M unit) :
  (forall a r err, adds_only keeps_json (Err_ a r err)) ->
  forall a r status v, adds_only keeps_json (Respond_with L env Err_ a r status v).
Proof.
  intros HErr a r status v h.
  destruct (decide (status = 204)) as [->|Hs].
  - exists (Done tt), [WriteHeader 204]. split; [reflexivity|]. repeat constructor.
  - rewrite (Respond_with_steps L env Err_ a r status v h Hs).
    apply defer_noop_adds; [exact I|].
    destruct (marshal_for L a v) as [b|err];
      (apply adds_after; [apply preamble_json|]);
      [apply write_adds_json|apply HErr].
Qed.

Lemma API_Err_adds_json (fuel : nat) (a : option (API Payload)) (r : Request)
    (err : option error) :
  adds_only keeps_json (API_Err L env fuel a r err).
Proof.
  revert a r err. induction fuel as [|fuel IH]; intros a r err h.
  - destruct err as [err|]; simpl; eexists; exists [];
      rewrite app_nil_r; (split; [reflexivity|constructor]).
  - destruct err as [err|]; simpl.
    2:{ exists (Done tt), []. rewrite app_nil_r. split; [reflexivity|constructor]. }
    destruct a as [api|].
    2:{ exists (Panic nil_dereference), []. rewrite app_nil_r.
        split; [reflexivity|constructor]. }
    destruct (errFn api) as [fn|].
    2:{ exists (Panic nil_dereference), []. rewrite app_nil_r.
        split; [reflexivity|constructor]. }
    destruct (fn (req_Context r) err) as [[v status] [ferr|]].
    + unfold log_call. destruct (logger api) as [lg|]; unfold_M; simpl.
      * apply (adds_after keeps_json
                 (Respond_with L env (API_Err L env fuel) (Some api) r
                    http.StatusInternalServerError
                    (VErrBody {| eb_Code := "internal error";
                                 eb_Msg := "an unexpected error occurred" |}))
                 h _); [repeat constructor|].
        apply Respond_with_adds_json. exact IH.
      * exists (Panic nil_dereference), []. rewrite app_nil_r.
        split; [reflexivity|constructor].
    + destruct (as_ErrBody v) as [eb|]; unfold_M; simpl.
      * apply (adds_after keeps_json
                 (Respond_with L env (API_Err L env fuel) (Some api) r status v)
                 h _).
        { repeat constructor. simpl. discriminate. }
        apply Respond_with_adds_json. exact IH.
      * apply (Respond_with_adds_json (API_Err L env fuel) IH (Some api) r status v h).
Qed.
End ContentType.

(** X26.  After a call of [Respond] with a status other than 204 the
    [Content-Type] header is [application/json; charset=utf-8], on every
    path: marshal success or failure, whatever [Err] and the error formatter
    do, whether the call returns, panics or exhausts its fuel. *)
Theorem Respond_content_type {Payload : Type} (L : Library Payload) (env : Env)
    (fuel : nat) (a : option (API Payload)) (r : Request) (status : Z)
    (v : value Payload) (h : list event) :
  status <> 204 ->
  exists o h',
    Respond L env fuel a r status v h = (o, h') /\
    headers_after h' !! "Content-Type" = Some json_content_type.
Proof.
  intros Hs. unfold Respond.
  rewrite (Respond_with_steps L env _ a r status v h Hs).
  assert (Hrest : exists o t,
             defer_ (wc_Close env noopCloser)
               (match marshal_for L a v with
                | inl b => write env a (selected_writer a h) status b
                | inr err => API_Err L env fuel a r (Some err)
                end) (h ++ respond_preamble a h)
             = (o, (h ++ respond_preamble a h) ++ t) /\ Forall keeps_json t).
  { apply defer_noop_adds; [exact I|].
    destruct (marshal_for L a v) as [b|err];
      [apply write_adds_json|apply API_Err_adds_json]. }
  destruct Hrest as (o & t & -> & Ht).
  exists o. eexists. split; [reflexivity|].
  rewrite headers_after_app. apply json_kept; [exact Ht|].
  rewrite headers_after_app. unfold respond_preamble.
  destruct (uses_gzip a); simpl; by rewrite lookup_insert_eq.
Qed.

Lemma Respond_content_type_witness :
  exists o h',
    Respond Sample.lib Sample.broken 3 (Some Formatters.api_unencodable)
      Cases.fetch 200 (VPayload "") [] = (o, h') /\
    headers_after h' !! "Content-Type" = Some json_content_type.
Proof.
  apply (Respond_content_type Sample.lib Sample.broken 3
           (Some Formatters.api_unencodable) Cases.fetch 200 (VPayload "") []).
  lia.
Defined.

(** X27.  When the value marshals, [Respond] (status other than 204) hands
    the marshalled bytes to the selected writer exactly once and makes no
    other write, whatever the configuration and whatever then fails: with
    gzip enabled the one write is on the gzip writer this call created,
    otherwise it is on the response writer itself. *)
Theorem Respond_hands_bytes_once {Payload : Type} (L : Library Payload) (env : Env)
    (fuel : nat) (a : option (API Payload)) (r : Request) (status : Z)
    (v : value Payload) (b : string) (h : list event) :
  status <> 204 ->
  marshal_for L a v = inl b ->
  exists o h',
    Respond L env fuel a r status v h = (o, h') /\
    writes_of (added h h')
      = [if uses_gzip a then GzipWrite (S (length h)) b else Write b] /\
    (uses_gzip a = true -> GzipNewWriter (S (length h)) ∈ added h h') /\
    body_writes h' = body_writes h ++ [b].
Proof.
  intros Hs Hm. unfold Respond.
  rewrite (Respond_with_steps L env _ a r status v h Hs), Hm.
  destruct (defer_noop_adds env sets_nothing
              (write env a (selected_writer a h) status b)
              (h ++ respond_preamble a h)
              ((h ++ respond_preamble a h)
                 ++ [WriteHeader status; write_event (selected_writer a h) b]) I)
    as (o & t & -> & Ht).
  { destruct (write_shape env a (selected_writer a h) status b
                (h ++ respond_preamble a h)) as (o & t & Hw & _ & Ht).
    exists o, t. split; [|exact Ht]. rewrite Hw. by rewrite <- !app_assoc. }
  exists o. eexists. split; [reflexivity|]. split; [|split].
  - rewrite <- (app_assoc (h ++ respond_preamble a h)). simpl.
    apply writes_of_added; [|exact Ht].
    unfold respond_preamble. by destruct (uses_gzip a).
  - intros Hgz. unfold added. rewrite <- !app_assoc, drop_app_length.
    unfold respond_preamble. rewrite Hgz.
    rewrite !elem_of_app, !elem_of_cons. left. left. right. by left.
  - rewrite !body_writes_app, preamble_body, (sets_nothing_body t Ht).
    change [WriteHeader status; write_event (selected_writer a h) b]
      with ([WriteHeader status] ++ [write_event (selected_writer a h) b]).
    rewrite body_writes_app, write_event_body. simpl. by rewrite !app_nil_r.
Qed.

Lemma Respond_hands_bytes_once_witness :
  exists o h',
    Respond Sample.lib Sample.broken 0 (Some Cases.zipped) Cases.fetch 201
      (VPayload "created") [] = (o, h') /\
    writes_of (added [] h') = [GzipWrite 1 (Sample.dq_wrapped "created")] /\
    (true = true -> GzipNewWriter 1 ∈ added [] h') /\
    body_writes h' = [] ++ [Sample.dq_wrapped "created"].
Proof.
  apply (Respond_hands_bytes_once Sample.lib Sample.broken 0 (Some Cases.zipped)
           Cases.fetch 201 (VPayload "created") (Sample.dq_wrapped "created") []).
  - lia.
  - reflexivity.
Defined.

(** ** The logging middleware *)

Section Logging.
Variable env : Env.
Variable body : BodyEnv.

(** Wrapped or not, a handler whose type assertions are answered alike gets
    the same answers, makes the same calls and reads the body as often. *)
Lemma serve_wrapped_serve (caps : Capability -> bool) (p : Prog) (s : Wrapped)
    (n : nat) (h : list event) :
  assertions_agree env caps p ->
  (serve_wrapped env body p s n h).1 = serve env caps body p n h.
Proof.
  revert s n h. induction p as [|reason|key val k IH|code k IH|b k IH|k IH
                               |size k IH|k IH|c k IH]; intros s n h Hp; simpl.
  - reflexivity.
  - reflexivity.
  - by apply IH.
  - unfold srw_WriteHeader. unfold_M. simpl. by apply IH.
  - unfold srw_Write, w_Write. unfold_M. simpl. apply IH. apply Hp.
  - unfold srw_Flush. unfold_M. destruct (sink_is_Flusher env); simpl; by apply IH.
  - apply IH. apply Hp.
  - apply IH. apply Hp.
  - destruct Hp as [Hc Hk]. rewrite Hc. apply IH. apply Hk.
Qed.

(** What the wrapper has recorded when the handler is over. *)
Lemma serve_wrapped_state (p : Prog) (s : Wrapped) (n : nat) (h : list event)
    (total : Z) :
  responseBytes (wr_writer s) = int_wrap total ->
  exists o t n' s',
    serve_wrapped env body p s n h = (o, h ++ t, n', s') /\
    o <> OutOfFuel /\
    statusCode (wr_writer s')
      = default (statusCode (wr_writer s)) (last_status t) /\
    responseBytes (wr_writer s') = int_wrap (total + answered env h t).
Proof.
  revert s n h total.
  induction p as [|reason|key val k IH|code k IH|b k IH|k IH|size k IH|k IH
                 |c k IH];
    intros s n h total Hs; simpl.
  - exists (Done tt), [], n, s. rewrite app_nil_r, Z.add_0_r. by repeat split.
  - exists (Panic reason), [], n, s. rewrite app_nil_r, Z.add_0_r.
    by repeat split.
  - destruct (IH s n (h ++ [HeaderSet key val]) total Hs)
      as (o & t & n' & s' & Hrun & Ho & Hc & Hb).
    exists o, (HeaderSet key val :: t), n', s'.
    rewrite Hrun, <- app_assoc. simpl. rewrite Hc, Hb.
    repeat split; try done. by destruct (last_status t).
  - unfold srw_WriteHeader. unfold_M. simpl.
    destruct (IH {| wr_writer := {| statusCode := code;
                                    responseBytes := responseBytes (wr_writer s) |};
                    wr_buf := wr_buf s |} n (h ++ [WriteHeader code]) total Hs)
      as (o & t & n' & s' & Hrun & Ho & Hc & Hb).
    exists o, (WriteHeader code :: t), n', s'.
    rewrite Hrun, <- app_assoc. simpl. rewrite Hc, Hb. simpl.
    repeat split; try done. by destruct (last_status t).
  - unfold srw_Write, w_Write. unfold_M. simpl.
    destruct (IH (sink_Write env h b)
                {| wr_writer :=
                     {| statusCode := statusCode (wr_writer s);
                        responseBytes :=
                          int_wrap (responseBytes (wr_writer s)
                                    + (sink_Write env h b).1) |};
                   wr_buf := wr_buf s |} n (h ++ [Write b])
                (total + (sink_Write env h b).1))
      as (o & t & n' & s' & Hrun & Ho & Hc & Hb).
    { simpl. rewrite Hs. apply int_wrap_add. }
    exists o, (Write b :: t), n', s'.
    rewrite Hrun, <- app_assoc. simpl. rewrite Hc, Hb. simpl.
    repeat split; try done; [by destruct (last_status t)|].
    f_equal. lia.
  - unfold srw_Flush. unfold_M. destruct (sink_is_Flusher env); simpl.
    + destruct (IH {| wr_writer := wr_writer s; wr_buf := wr_buf s |} n
                  (h ++ [Flush]) total Hs)
        as (o & t & n' & s' & Hrun & Ho & Hc & Hb).
      exists o, (Flush :: t), n', s'.
      rewrite Hrun, <- app_assoc. simpl. rewrite Hc, Hb. simpl.
      repeat split; try done. by destruct (last_status t).
    + destruct (IH {| wr_writer := wr_writer s; wr_buf := wr_buf s |} n h total Hs)
        as (o & t & n' & s' & Hrun & Ho & Hc & Hb).
      exists o, t, n', s'. by rewrite Hrun.
  - destruct (IH (body_Read body n size)
                {| wr_writer := wr_writer s;
                   wr_buf := wr_buf s +:+ (body_Read body n size).1 |}
                (S n) h total Hs)
      as (o & t & n' & s' & Hrun & Ho & Hc & Hb).
    exists o, t, n', s'. by rewrite Hrun.
  - destruct (IH (body_Close body) s n h total Hs)
      as (o & t & n' & s' & Hrun & Ho & Hc & Hb).
    exists o, t, n', s'. by rewrite Hrun.
  - destruct (IH (srw_has c) s n h total Hs)
      as (o & t & n' & s' & Hrun & Ho & Hc & Hb).
    exists o, t, n', s'. by rewrite Hrun.
Qed.
End Logging.

(** X28.  [LoggingMW] is transparent to a handler whose type assertions on
    its writer are answered by [*StatusResponseWriter] as by the writer
    itself (a handler that makes none, or one that asserts [http.Flusher] on
    a writer that is one): with a logger, the outcome and the calls made on
    the writer are those of the handler served without the middleware, and
    one record is logged whether the handler returns or panics. *)
Theorem LoggingMW_transparent (env : Env) (caps : Capability -> bool)
    (ua_Name : string -> string)
    (lg : Logger) (next : Prog) (r : Request) (info : RequestInfo)
    (body : BodyEnv) (took : Z) (n : nat) (h : list event) :
  assertions_agree env caps next ->
  (LoggingMW env ua_Name (Some lg) next r info body took n h).1
    = (serve env caps body next n h).1 /\
  is_Some (LoggingMW env ua_Name (Some lg) next r info body took n h).2.
Proof.
  intros Hagree. unfold LoggingMW.
  pose proof (serve_wrapped_serve env body caps next
                {| wr_writer := NewStatusResponseWriter; wr_buf := "" |} n h Hagree)
    as Hsame.
  destruct (serve_wrapped_state env body next
              {| wr_writer := NewStatusResponseWriter; wr_buf := "" |} n h 0 eq_refl)
    as (o & t & n' & s' & Hrun & Ho & _ & _).
  rewrite Hrun in Hsame |- *. rewrite <- Hsame. simpl.
  destruct o as [[]|reason|]; [| |done]; simpl; split; by eauto.
Qed.

Lemma LoggingMW_transparent_witness :
  (LoggingMW Sample.quiet (fun ua => ua) (Some []) stream_chunk Cases.fetch
     {| Host := "api.example"; URL_Path := "/v1/widgets"; URL_Query := "";
        Proto := "HTTP/1.1"; ContentLength := 0; RemoteAddr := "10.0.0.1:4711" |}
     {| body_Read := fun _ _ => ("", None); body_Close := None |} 0 0 []).1
  = (Done tt, [Write "chunk"; Flush]).
Proof.
  etransitivity.
  - apply (LoggingMW_transparent Sample.quiet (fun _ => true) (fun ua => ua) []
             stream_chunk Cases.fetch _ _ 0 0 []).
    simpl. intros r. split; [reflexivity|]. by intros [].
  - reflexivity.
Defined.

(** Without that agreement the middleware shows: behind it a handler that
    asserts [http.Hijacker] on a writer that has it is told it has not. *)
Example LoggingMW_hides_Hijacker :
  let info := {| Host := "api.example"; URL_Path := "/ws"; URL_Query := "";
                 Proto := "HTTP/1.1"; ContentLength := 0;
                 RemoteAddr := "10.0.0.1:4711" |} in
  let body := {| body_Read := fun _ _ => ("", None); body_Close := None |} in
  (serve Sample.quiet (fun _ => true) body hijack_or_fail 0 []).1 = (Done tt, []) /\
  (LoggingMW Sample.quiet (fun ua => ua) (Some []) hijack_or_fail Cases.fetch
     info body 0 0 []).1 = (Done tt, [WriteHeader 500]).
Proof. split; reflexivity. Qed.

(** X29.  The record [LoggingMW] logs carries as status code the argument of
    the handler's last [WriteHeader] (200 if there was none, or if it was 0),
    as response size the sum of the byte counts the writer answered to the
    handler's writes (wrapped to 64 bits), as error reference the value of
    the error-code header when the handler is over, and as remote address
    the [X-Forwarded-For] header if it is set and [RemoteAddr] otherwise. *)
Theorem LoggingMW_record (env : Env) (ua_Name : string -> string)
    (lg : Logger) (next : Prog) (r : Request) (info : RequestInfo)
    (body : BodyEnv) (took : Z) (n : nat) (h : list event) :
  exists o t rec,
    LoggingMW env ua_Name (Some lg) next r info body took n h
      = (o, h ++ t, Some rec) /\
    al_status_code rec =
      match last_status t with
      | Some code => if decide (code = 0) then 200 else code
      | None => 200
      end /\
    al_response_size rec = int_wrap (answered env h t) /\
    al_errReference rec
      = default "" (headers_after (h ++ t) !! PlatformErrorCodeHeader) /\
    al_remote rec =
      (if decide (Header_Get (Header r) "X-Forwarded-For" = "")
       then RemoteAddr info
       else Header_Get (Header r) "X-Forwarded-For").
Proof.
  unfold LoggingMW.
  destruct (serve_wrapped_state env body next
              {| wr_writer := NewStatusResponseWriter; wr_buf := "" |} n h 0 eq_refl)
    as (o & t & n' & s' & Hrun & Ho & Hc & Hb).
  rewrite Hrun. exists o, t.
  eexists. split.
  - destruct o as [[]|reason|]; [reflexivity|reflexivity|done].
  - simpl. unfold srw_Code, srw_ResponseBytes. rewrite Hc, Hb, Z.add_0_l. simpl.
    split; [|by repeat split].
    destruct (last_status t) as [code|]; reflexivity.
Qed.

(** X30.  Around a handler that does what [WriteErrorResponse] does,
    [LoggingMW] leaves the response as [WriteErrorResponse] makes it and logs
    the status of the code as status code and the code itself as error
    reference. *)
Theorem LoggingMW_error_response {Payload : Type} (L : Library Payload)
    (E : ErrorCodes) (env : Env) (ua_Name : string -> string) (lg : Logger)
    (ctx : Context) (code msg : string) (r : Request) (info : RequestInfo)
    (caps : Capability -> bool)
    (body : BodyEnv) (took : Z) (n : nat) (h : list event) :
  serve env caps body (error_responder L E ctx code msg) n h
    = (WriteErrorResponse L E env ctx code msg h, n) /\
  exists rec,
    LoggingMW env ua_Name (Some lg) (error_responder L E ctx code msg)
      r info body took n h
      = (Done tt, h ++ error_response L E ctx code msg, Some rec) /\
    al_status_code rec = ErrorCodeToStatusCode E ctx code /\
    al_errReference rec = code.
Proof.
  split.
  - rewrite WriteErrorResponse_events. unfold error_responder, error_response.
    simpl. unfold w_Write. simpl. by rewrite <- !app_assoc.
  - unfold LoggingMW, error_responder, error_response. simpl.
    unfold srw_WriteHeader, srw_Write, w_Write. unfold_M. simpl.
    eexists. split; [by rewrite <- !app_assoc|]. simpl. split.
    + unfold srw_Code. simpl.
      pose proof (error_status_range E ctx code) as Hrange.
      destruct (decide (ErrorCodeToStatusCode E ctx code = 0)) as [H0|_];
        [lia|reflexivity].
    + rewrite !headers_after_app. simpl.
      rewrite lookup_insert_ne by done. by rewrite lookup_insert_eq.
Qed.
